(** * Webcam Behavior Analytics: the dashboard client and the frame pipeline

    The repository ships the React dashboard ([frontend/src/App.js]); the
    analysis backend it talks to is described by the specification only.

    - [Module App] embeds the parts of [App.js] that carry behaviour: the
      [status_update] handler with its attentiveness score and chart window,
      and the capture timer ([captureFrame], [toggleStreaming],
      [handleLogout]).
    - [Module InfoBox] embeds the "How It Works" box of the page.
    - [Module View] embeds what the page shows of the state (badge icon,
      metric bars, monitoring button) and the cleanup on unmount;
      [Module Auth] embeds login, registration, logout and the session
      kept in [localStorage].
    - [Module Pipeline] models the frame-to-state pipeline of the
      specification (ingestion, classification with debounce and exit
      hysteresis, emission).

    JavaScript numbers are embedded as exact rationals ([Q]): the values that
    travel in a JSON event are finite, comparisons on them are exact, and the
    concrete inputs used below are binary fractions on which the double
    arithmetic of the source is exact as well. *)

From Stdlib Require Import QArith Qround Qminmax ZArith Lia Lqa Ascii String.
From stdpp Require Import gmap strings list fin_maps.

(** [x < y] on rationals, as a boolean. *)
Definition Qltb (x y : Q) : bool :=
  (Qnum x * QDen y <? Qnum y * QDen x)%Z.

(** ** The dashboard client *)

Module App.

(** [const MAX_CHART_POINTS = 30] *)
Definition MAX_CHART_POINTS : nat := 30.

(** [const STATUS_COLORS = { 'Attentive': ..., ... }], a JS object used as a
    map from status name to colour. *)
Definition STATUS_COLORS : gmap string string :=
  list_to_map
    [ ("Attentive", "#00ff88");
      ("Drowsy", "#ff4444");
      ("Yawning", "#ffaa00");
      ("Distracted", "#ff6600");
      ("No Face Detected", "#888888") ].

(** [a || d] on a looked-up string: a missing key ([undefined]) and the
    empty string are falsy. *)
Definition js_or (a : option string) (d : string) : string :=
  match a with
  | Some c => if decide (c = "") then d else c
  | None => d
  end.

(** [STATUS_COLORS] is written as an object literal, so a property read
    that finds no own key goes on to [Object.prototype]. These are the
    names found there (ECMA-262, 20.1.3 and B.2.2); each holds a function,
    and [__proto__] yields the prototype object itself: truthy values that
    are not strings. *)
Definition Object_prototype_names : list string :=
  [ "constructor"; "hasOwnProperty"; "isPrototypeOf"; "propertyIsEnumerable";
    "toLocaleString"; "toString"; "valueOf"; "__proto__";
    "__defineGetter__"; "__defineSetter__"; "__lookupGetter__";
    "__lookupSetter__" ].

(** What the badge is given as its colour: a colour string, or the member
    of [Object.prototype] of the given name. *)
Inductive StyleValue :=
| Colour (c : string)
| Member (name : string).

(** [const statusColor = STATUS_COLORS[currentStatus] || '#888888']: an own
    key gives its colour, an inherited name its member (truthy, so [||]
    keeps it), any other name [undefined] and so the default. *)
Definition statusColor (currentStatus : string) : StyleValue :=
  match STATUS_COLORS !! currentStatus with
  | Some c => Colour (js_or (Some c) "#888888")
  | None =>
      if decide (currentStatus ∈ Object_prototype_names)
      then Member currentStatus
      else Colour "#888888"
  end.

(** The JSON values an event object can hold. *)
Inductive JsVal :=
| JNull
| JBool (b : bool)
| JNum (q : Q)
| JStr (s : string).

(** [Math.round]: the nearest integer, halves going up. *)
Definition Math_round (x : Q) : Z := Qfloor (x + (1 # 2)).

(** [Math.max] on two numbers. *)
Definition Math_max (x y : Q) : Q := Qmax x y.

(** The [if / else if] chain of the [status_update] handler that computes
    [attentivenessScore], starting from [let attentivenessScore = 100]. *)
Definition attentivenessScore (status : string) (ear_score mar_score : Q) : Q :=
  if decide (status = "Drowsy") then Math_max 20 (ear_score * 200)
  else if decide (status = "Yawning") then Math_max 30 (100 - mar_score * 100)
  else if decide (status = "Distracted") then 25
  else if decide (status = "No Face Detected") then 0
  else 100.

(** One entry of [chartData]. *)
Record ChartPoint := {
  time : string;
  score : Z;
  ear : Q;
  mar : Q
}.

(** [arr.slice(-n)]: the start index is [max (length - n) 0]. *)
Definition slice_last {A} (n : nat) (arr : list A) : list A :=
  drop (length arr - n) arr.

(** The updater passed to [setChartData] in the handler. *)
Definition push_point (prevData : list ChartPoint) (p : ChartPoint) : list ChartPoint :=
  let newData := prevData ++ [p] in
  slice_last MAX_CHART_POINTS newData.

(** Component state ([useState]), refs ([useRef]) and the part of the page
    the component acts on: the interval timers it registered and the events
    it handed to [socket.emit]. *)
Record AppState := {
  isConnected : bool;
  currentStatus : string;
  earScore : Q;
  marScore : Q;
  chartData : list ChartPoint;
  isLoggedIn : bool;
  isStreaming : bool;
  (* socketRef.current: [None] before the socket is created, otherwise its
     [connected] flag *)
  socketRef : option bool;
  (* captureIntervalRef.current *)
  captureIntervalRef : option nat;
  (* active interval timers of the page, id to period in ms; every one of
     them calls [captureFrame] *)
  timers : gmap nat nat;
  (* the id the next [setInterval] returns *)
  next_timer : nat;
  (* what was passed to [socket.emit], oldest first *)
  sent : list (string * gmap string string)
}.

Definition initial : AppState := {|
  isConnected := false;
  currentStatus := "Waiting...";
  earScore := 0;
  marScore := 0;
  chartData := [];
  isLoggedIn := false;
  isStreaming := false;
  socketRef := None;
  captureIntervalRef := None;
  timers := ∅;
  next_timer := 1;
  sent := []
|}.

(** The state setters of [useState], one per variable the handlers write. *)
Definition setIsConnected (b : bool) (s : AppState) : AppState :=
  {| isConnected := b; currentStatus := currentStatus s; earScore := earScore s;
     marScore := marScore s; chartData := chartData s; isLoggedIn := isLoggedIn s;
     isStreaming := isStreaming s; socketRef := socketRef s;
     captureIntervalRef := captureIntervalRef s; timers := timers s;
     next_timer := next_timer s; sent := sent s |}.

Definition setCurrentStatus (v : string) (s : AppState) : AppState :=
  {| isConnected := isConnected s; currentStatus := v; earScore := earScore s;
     marScore := marScore s; chartData := chartData s; isLoggedIn := isLoggedIn s;
     isStreaming := isStreaming s; socketRef := socketRef s;
     captureIntervalRef := captureIntervalRef s; timers := timers s;
     next_timer := next_timer s; sent := sent s |}.

Definition setEarScore (v : Q) (s : AppState) : AppState :=
  {| isConnected := isConnected s; currentStatus := currentStatus s; earScore := v;
     marScore := marScore s; chartData := chartData s; isLoggedIn := isLoggedIn s;
     isStreaming := isStreaming s; socketRef := socketRef s;
     captureIntervalRef := captureIntervalRef s; timers := timers s;
     next_timer := next_timer s; sent := sent s |}.

Definition setMarScore (v : Q) (s : AppState) : AppState :=
  {| isConnected := isConnected s; currentStatus := currentStatus s;
     earScore := earScore s; marScore := v; chartData := chartData s;
     isLoggedIn := isLoggedIn s; isStreaming := isStreaming s;
     socketRef := socketRef s; captureIntervalRef := captureIntervalRef s;
     timers := timers s; next_timer := next_timer s; sent := sent s |}.

(** [setChartData(prevData => ...)], the functional form. *)
Definition setChartData (f : list ChartPoint -> list ChartPoint) (s : AppState) : AppState :=
  {| isConnected := isConnected s; currentStatus := currentStatus s;
     earScore := earScore s; marScore := marScore s; chartData := f (chartData s);
     isLoggedIn := isLoggedIn s; isStreaming := isStreaming s;
     socketRef := socketRef s; captureIntervalRef := captureIntervalRef s;
     timers := timers s; next_timer := next_timer s; sent := sent s |}.

Definition setIsLoggedIn (b : bool) (s : AppState) : AppState :=
  {| isConnected := isConnected s; currentStatus := currentStatus s;
     earScore := earScore s; marScore := marScore s; chartData := chartData s;
     isLoggedIn := b; isStreaming := isStreaming s; socketRef := socketRef s;
     captureIntervalRef := captureIntervalRef s; timers := timers s;
     next_timer := next_timer s; sent := sent s |}.

Definition setIsStreaming (b : bool) (s : AppState) : AppState :=
  {| isConnected := isConnected s; currentStatus := currentStatus s;
     earScore := earScore s; marScore := marScore s; chartData := chartData s;
     isLoggedIn := isLoggedIn s; isStreaming := b; socketRef := socketRef s;
     captureIntervalRef := captureIntervalRef s; timers := timers s;
     next_timer := next_timer s; sent := sent s |}.

(** Writes to the refs and to the page. *)
Definition set_socket (c : bool) (s : AppState) : AppState :=
  {| isConnected := isConnected s; currentStatus := currentStatus s;
     earScore := earScore s; marScore := marScore s; chartData := chartData s;
     isLoggedIn := isLoggedIn s; isStreaming := isStreaming s; socketRef := Some c;
     captureIntervalRef := captureIntervalRef s; timers := timers s;
     next_timer := next_timer s; sent := sent s |}.

Definition set_captureIntervalRef (r : option nat) (s : AppState) : AppState :=
  {| isConnected := isConnected s; currentStatus := currentStatus s;
     earScore := earScore s; marScore := marScore s; chartData := chartData s;
     isLoggedIn := isLoggedIn s; isStreaming := isStreaming s;
     socketRef := socketRef s; captureIntervalRef := r; timers := timers s;
     next_timer := next_timer s; sent := sent s |}.

(** [setInterval(captureFrame, period)]: registers a timer under a fresh id,
    which is what the call returns. *)
Definition setInterval (period : nat) (s : AppState) : nat * AppState :=
  (next_timer s,
   {| isConnected := isConnected s; currentStatus := currentStatus s;
      earScore := earScore s; marScore := marScore s; chartData := chartData s;
      isLoggedIn := isLoggedIn s; isStreaming := isStreaming s;
      socketRef := socketRef s; captureIntervalRef := captureIntervalRef s;
      timers := <[ next_timer s := period ]> (timers s);
      next_timer := S (next_timer s); sent := sent s |}).

(** [clearInterval(id)] *)
Definition clearInterval (id : nat) (s : AppState) : AppState :=
  {| isConnected := isConnected s; currentStatus := currentStatus s;
     earScore := earScore s; marScore := marScore s; chartData := chartData s;
     isLoggedIn := isLoggedIn s; isStreaming := isStreaming s;
     socketRef := socketRef s; captureIntervalRef := captureIntervalRef s;
     timers := delete id (timers s); next_timer := next_timer s; sent := sent s |}.

(** [socketRef.current.emit(name, payload)] *)
Definition emit (name : string) (payload : gmap string string) (s : AppState) : AppState :=
  {| isConnected := isConnected s; currentStatus := currentStatus s;
     earScore := earScore s; marScore := marScore s; chartData := chartData s;
     isLoggedIn := isLoggedIn s; isStreaming := isStreaming s;
     socketRef := socketRef s; captureIntervalRef := captureIntervalRef s;
     timers := timers s; next_timer := next_timer s;
     sent := sent s ++ [(name, payload)] |}.

(** The socket goes up or down ([c] is the new [socket.connected]) and the
    [connect] / [disconnect] handler runs [setIsConnected(c)]. *)
Definition on_connection (c : bool) (s : AppState) : AppState :=
  setIsConnected c (set_socket c s).

(** The body of the [status_update] handler once [data] is destructured;
    [now] is [new Date().toLocaleTimeString()]. *)
Definition status_update (status : string) (ear_score mar_score : Q)
    (now : string) (s : AppState) : AppState :=
  let s := setCurrentStatus status s in
  let s := setEarScore ear_score s in
  let s := setMarScore mar_score s in
  let attScore := attentivenessScore status ear_score mar_score in
  let timestamp := now in
  setChartData
    (fun prevData =>
       push_point prevData
         {| time := timestamp;
            score := Math_round attScore;
            ear := ear_score * 100;
            mar := mar_score * 100 |})
    s.

(** [const { status, ear_score, mar_score } = data] followed by the handler
    body. The event contract types the three fields as a string and two
    numbers; an object outside that contract is not an event of the model. *)
Definition on_status_update (data : gmap string JsVal) (now : string)
    (s : AppState) : option AppState :=
  match data !! "status", data !! "ear_score", data !! "mar_score" with
  | Some (JStr status), Some (JNum ear_score), Some (JNum mar_score) =>
      Some (status_update status ear_score mar_score now s)
  | _, _, _ => None
  end.

(** [captureFrame]. [webcam] is what the page offers at the call:
    [None] when [webcamRef.current] is null, otherwise the result of
    [getScreenshot()] ([None] for null). An empty string is falsy, as null. *)
Definition captureFrame (webcam : option (option string)) (s : AppState) : AppState :=
  match webcam, socketRef s with
  | Some shot, Some true =>
      match shot with
      | Some imageSrc =>
          if decide (imageSrc = "") then s
          else emit "video_frame" {[ "frame" := imageSrc ]} s
      | None => s
      end
  | _, _ => s
  end.

(** Truthiness of [captureIntervalRef.current]: null and the number 0 are
    falsy. *)
Definition interval_set (r : option nat) : option nat :=
  match r with
  | Some id => if decide (id = 0) then None else Some id
  | None => None
  end.

(** [if (captureIntervalRef.current) {
       clearInterval(captureIntervalRef.current);
       captureIntervalRef.current = null; }],
    as written in [toggleStreaming] and again in [handleLogout]. *)
Definition clear_capture_interval (s : AppState) : AppState :=
  match interval_set (captureIntervalRef s) with
  | Some id => set_captureIntervalRef None (clearInterval id s)
  | None => s
  end.

Definition toggleStreaming (s : AppState) : AppState :=
  if isStreaming s then
    let s := clear_capture_interval s in
    let s := setIsStreaming false s in
    setCurrentStatus "Paused" s
  else
    let '(id, s) := setInterval 200 s in
    let s := set_captureIntervalRef (Some id) s in
    setIsStreaming true s.

(** [handleLogout]; the token and the user record it removes are not part
    of the state above. *)
Definition handleLogout (s : AppState) : AppState :=
  let s := setIsLoggedIn false s in
  let s := clear_capture_interval s in
  setIsStreaming false s.

(** A successful [handleLogin], as far as the state above is concerned. *)
Definition handleLogin (s : AppState) : AppState :=
  setIsLoggedIn true s.

(** What can happen to the mounted component. *)
Inductive Event :=
| SocketConnect
| SocketDisconnect
| StatusUpdate (data : gmap string JsVal) (now : string)
| Tick (id : nat) (webcam : option (option string))
| ClickToggle
| ClickLogout
| LoginOk.

(** One event. [None] when the event cannot occur in [s]: a timer that is
    not registered does not fire, the monitoring button is
    [disabled={!isConnected}], the logout button is rendered only when
    logged in, and a [status_update] outside the contract is not modelled. *)
Definition step (s : AppState) (ev : Event) : option AppState :=
  match ev with
  | SocketConnect => Some (on_connection true s)
  | SocketDisconnect => Some (on_connection false s)
  | StatusUpdate data now => on_status_update data now s
  | Tick id webcam =>
      match timers s !! id with
      | Some _ => Some (captureFrame webcam s)
      | None => None
      end
  | ClickToggle => if isConnected s then Some (toggleStreaming s) else None
  | ClickLogout => if isLoggedIn s then Some (handleLogout s) else None
  | LoginOk => Some (handleLogin s)
  end.

Fixpoint run (s : AppState) (evs : list Event) : option AppState :=
  match evs with
  | [] => Some s
  | ev :: evs' =>
      match step s ev with
      | Some s' => run s' evs'
      | None => None
      end
  end.

End App.

(** ** The "How It Works" box *)

Module InfoBox.

#[local] Set Warnings "-register-all".

(** JSX as written: literal text, a [{'...'}] string expression, and an
    element with its children. *)
Inductive Jsx :=
| Text (s : string)
| Expr (s : string)
| Elem (tag : string) (children : list Jsx).

(** [<div className="info-box"> ... </div>] *)
Definition info_box : Jsx :=
  Elem "div"
    [ Elem "h3" [Text "How It Works"];
      Elem "ul"
        [ Elem "li" [ Elem "strong" [Text "EAR "; Expr "<"; Text " 0.22:"];
                      Text " Eyes closing → Drowsy" ];
          Elem "li" [ Elem "strong" [Text "MAR "; Expr ">"; Text " 0.6:"];
                      Text " Mouth open → Yawning" ];
          Elem "li" [ Elem "strong" [Text "Head turned:"];
                      Text " Looking away → Distracted" ] ] ].

(** The text a node shows. *)
Fixpoint textContent (n : Jsx) : string :=
  match n with
  | Text s => s
  | Expr s => s
  | Elem _ children => String.concat "" (map textContent children)
  end.

(** The elements with a given tag, in document order. *)
Fixpoint by_tag (tag : string) (n : Jsx) : list Jsx :=
  match n with
  | Text _ => []
  | Expr _ => []
  | Elem t children =>
      (if decide (t = tag) then [n] else []) ++ concat (map (by_tag tag) children)
  end.

(** The emphasised head of every list item: the condition the box states. *)
Definition headlines : list string := map textContent (by_tag "strong" info_box).

(** Reading a headline of the form [NAME OP NUMBER:]. *)
Inductive Cmp := Below | Above.

Record Rule := {
  metric : string;
  cmp : Cmp;
  threshold : Q
}.

Definition digit_value (c : ascii) : option Z :=
  let n := nat_of_ascii c in
  if decide (48 <= n <= 57)%nat then Some (Z.of_nat (n - 48)) else None.

(** Digits of [s] folded into [acc], with their count; [None] on another
    character. *)
Fixpoint read_digits (s : string) (acc : Z) (count : nat) : option (Z * nat) :=
  match s with
  | EmptyString => Some (acc, count)
  | String c rest =>
      match digit_value c with
      | Some d => read_digits rest (acc * 10 + d) (S count)
      | None => None
      end
  end.

(** The part of [s] before the first [sep], and what follows it. *)
Fixpoint split_at (sep : ascii) (s : string) : string * option string :=
  match s with
  | EmptyString => (EmptyString, None)
  | String c rest =>
      if decide (c = sep) then (EmptyString, Some rest)
      else let '(a, b) := split_at sep rest in (String c a, b)
  end.

(** A decimal numeral [ddd.ddd] as the rational it denotes. *)
Definition read_decimal (s : string) : option Q :=
  match split_at "."%char s with
  | (ip, Some fp) =>
      match read_digits ip 0 0, read_digits fp 0 0 with
      | Some (i, S _), Some (f, S k) =>
          Some (Qmake (i * 10 ^ Z.of_nat (S k) + f) (Pos.pow 10 (Pos.of_nat (S k))))
      | _, _ => None
      end
  | (ip, None) =>
      match read_digits ip 0 0 with
      | Some (i, S _) => Some (inject_Z i)
      | _ => None
      end
  end.

Definition read_cmp (s : string) : option Cmp :=
  if decide (s = "<") then Some Below
  else if decide (s = ">") then Some Above
  else None.

Definition read_rule (headline : string) : option Rule :=
  match split_at " "%char headline with
  | (name, Some rest) =>
      match split_at " "%char rest with
      | (op, Some rest') =>
          match split_at ":"%char rest' with
          | (num, Some EmptyString) =>
              match read_cmp op, read_decimal num with
              | Some c, Some q => Some {| metric := name; cmp := c; threshold := q |}
              | _, _ => None
              end
          | _ => None
          end
      | _ => None
      end
  | _ => None
  end.

(** What a rule says of a measured value. *)
Definition holds (r : Rule) (x : Q) : bool :=
  match cmp r with
  | Below => Qltb x (threshold r)
  | Above => Qltb (threshold r) x
  end.

(** The rules the box states, in order; a headline without a threshold
    ("Head turned:") states none. *)
Definition stated_rules : list Rule := omap read_rule headlines.

End InfoBox.

(** ** The frame-to-state pipeline

    The pipeline runs in the backend ([backend/app.py] in the README), which
    is not among the shipped sources: only its client is. Every definition
    of this module that stands for backend code is written from the
    specification, section by section. *)

Module Pipeline.

(** Modelled from the spec: the five states of the backend's
    StateClassifier (3, 4.4). *)
Inductive State := Attentive | Drowsy | Yawning | Distracted | NoFace.

#[export] Instance State_eq_dec : EqDecision State.
Proof. solve_decision. Defined.

(** Modelled from the spec: the name under which the backend's emitter
    sends a state in the [status] field, "one of the five state names"
    (6). *)
Definition state_name (st : State) : string :=
  match st with
  | Attentive => "Attentive"
  | Drowsy => "Drowsy"
  | Yawning => "Yawning"
  | Distracted => "Distracted"
  | NoFace => "NoFace"
  end.


(** Modelled from the spec: the backend's recognised configuration
    options (6). *)
Record Config := {
  EAR_THRESH : Q;
  MAR_THRESH : Q;
  ANGLE_THRESH : Q;
  CONSEC_FRAMES : nat
}.

(** Modelled from the spec: the backend's documented defaults,
    [EAR_THRESH] 0.22 and [MAR_THRESH] 0.6 (6); the other two options are
    chosen by the implementer. *)
Definition default_config (angle : Q) (consec : nat) : Config :=
  {| EAR_THRESH := 22 # 100;
     MAR_THRESH := 6 # 10;
     ANGLE_THRESH := angle;
     CONSEC_FRAMES := consec |}.

(** Modelled from the spec: the Metrics the backend's MetricComputer
    derives for one frame (3). *)
Record Metrics := {
  ear : Q;
  mar : Q;
  head_deviation : Q;
  timestamp : nat
}.

(** Modelled from the spec: what the backend's classifier sees of a frame,
    metrics or the absence signal (4.3, 4.4). *)
Inductive Observation :=
| Absent
| Present (m : Metrics).

(** Modelled from the spec: the three conditions the backend's classifier
    evaluates on the metrics, [ear < EAR_THRESH], [mar > MAR_THRESH],
    [head_deviation > ANGLE_THRESH] (4.4 step 2). *)
Definition drowsy_condition (cfg : Config) (m : Metrics) : bool :=
  Qltb (ear m) (EAR_THRESH cfg).

Definition yawning_condition (cfg : Config) (m : Metrics) : bool :=
  Qltb (MAR_THRESH cfg) (mar m).

Definition distracted_condition (cfg : Config) (m : Metrics) : bool :=
  Qltb (ANGLE_THRESH cfg) (head_deviation m).

(** Modelled from the spec: the classifier's four consecutive-frame
    counters, one per non-Attentive condition (3). *)
Record Counters := {
  noface_count : nat;
  drowsy_count : nat;
  yawning_count : nat;
  distracted_count : nat
}.

(** Modelled from the spec: the backend's ClassificationState: the state,
    the counters and the time of the last transition (3). *)
Record ClassificationState := {
  state : State;
  counters : Counters;
  last_transition : nat
}.

(** Modelled from the spec: the classifier's start, "Initial state:
    Attentive" (4.4), nothing counted. *)
Definition initial_classification : ClassificationState :=
  {| state := Attentive;
     counters := {| noface_count := 0; drowsy_count := 0;
                    yawning_count := 0; distracted_count := 0 |};
     last_transition := 0 |}.

(** Modelled from the spec: the classifier's test that a counter "has
    reached [CONSEC_FRAMES]" (4.4 steps 1, 3, 4). *)
Definition reached (cfg : Config) (n : nat) : bool :=
  CONSEC_FRAMES cfg <=? n.

(** Modelled from the spec: the classifier's counter of a state, "one per
    non-Attentive condition" (3); Attentive has none. *)
Definition counter_of (st : State) (c : Counters) : nat :=
  match st with
  | NoFace => noface_count c
  | Drowsy => drowsy_count c
  | Yawning => yawning_count c
  | Distracted => distracted_count c
  | Attentive => 0
  end.

(** Modelled from the spec: the classifier's counter move, "increment its
    counter if true, else reset it to zero" (4.4 steps 1 and 2). *)
Definition bump (qualifies : bool) (c : nat) : nat :=
  if qualifies then S c else 0.

(** Modelled from the spec: the classifier's exit hysteresis (4.4 step 5),
    the move of the counter that triggered the current state. Leaving the
    state "requires the triggering counter to fall back to zero via
    [CONSEC_FRAMES] consecutive non-qualifying frames": a non-qualifying
    frame takes one off, counting down from [CONSEC_FRAMES]; a qualifying
    frame ends the run of non-qualifying ones, so the counter is back at
    [CONSEC_FRAMES] or above. *)
Definition hold (cfg : Config) (qualifies : bool) (c : nat) : nat :=
  if qualifies then Nat.max (S c) (CONSEC_FRAMES cfg)
  else Nat.min c (CONSEC_FRAMES cfg) - 1.

(** Modelled from the spec: the classifier's move of the counter of
    condition [cond] when it is in state [held]: step 5 for the triggering
    counter, steps 1 and 2 for the others (4.4). *)
Definition move (cfg : Config) (held cond : State) (qualifies : bool) (c : nat) : nat :=
  if decide (held = cond) then hold cfg qualifies c else bump qualifies c.

(** Modelled from the spec: the counters after a frame (4.4 steps 1, 2 and
    5). An absent face qualifies for NoFace and for none of the other
    three conditions; metrics qualify each of the three on its own and not
    NoFace, whose counter counts consecutive absent frames. The rule of
    4.4 is followed, which debounces NoFace like the other conditions;
    section 8 words its absence property without the debounce. *)
Definition update_counters (cfg : Config) (held : State) (c : Counters)
    (obs : Observation) : Counters :=
  match obs with
  | Absent =>
      {| noface_count := move cfg held NoFace true (noface_count c);
         drowsy_count := move cfg held Drowsy false (drowsy_count c);
         yawning_count := move cfg held Yawning false (yawning_count c);
         distracted_count := move cfg held Distracted false (distracted_count c) |}
  | Present m =>
      {| noface_count := move cfg held NoFace false (noface_count c);
         drowsy_count :=
           move cfg held Drowsy (drowsy_condition cfg m) (drowsy_count c);
         yawning_count :=
           move cfg held Yawning (yawning_condition cfg m) (yawning_count c);
         distracted_count :=
           move cfg held Distracted (distracted_condition cfg m) (distracted_count c) |}
  end.

(** Modelled from the spec: the classifier's test that a condition is in
    force (4.4 steps 3 to 5): its counter has reached [CONSEC_FRAMES], or
    it is the state the classifier is in and its counter has not fallen
    back to zero yet. *)
Definition in_force (cfg : Config) (held : State) (c : Counters) (cond : State) : bool :=
  reached cfg (counter_of cond c)
  || (bool_decide (held = cond) && (0 <? counter_of cond c)).

(** Modelled from the spec: steps 3, 4 and 5 of the classifier's rule
    (4.4), the state read off the counters: the condition in force that
    comes first in the order NoFace, Drowsy, Yawning, Distracted, and
    Attentive when none is in force. *)
Definition report (cfg : Config) (held : State) (c : Counters) : State :=
  if in_force cfg held c NoFace then NoFace
  else if in_force cfg held c Drowsy then Drowsy
  else if in_force cfg held c Yawning then Yawning
  else if in_force cfg held c Distracted then Distracted
  else Attentive.

(** Modelled from the spec: the per-frame transition of the backend's
    StateClassifier (4.4), at capture time [now]: the counters move, then
    the state is read off them. *)
Definition classify (cfg : Config) (now : nat) (cs : ClassificationState)
    (obs : Observation) : ClassificationState :=
  let c' := update_counters cfg (state cs) (counters cs) obs in
  let st' := report cfg (state cs) c' in
  {| state := st';
     counters := c';
     last_transition := if decide (st' = state cs) then last_transition cs else now |}.

(** The classifier over a stream of timed observations: the state after
    each frame, in order. *)
Fixpoint trace (cfg : Config) (cs : ClassificationState)
    (stream : list (nat * Observation)) : list ClassificationState :=
  match stream with
  | [] => []
  | (now, obs) :: rest =>
      let cs' := classify cfg now cs obs in
      cs' :: trace cfg cs' rest
  end.



(** A run of frames with closed eyes, [n] of them done: the state is not
    NoFace; before the [CONSEC_FRAMES]-th frame the Drowsy counter counts
    the frames and the state is not Drowsy, from it on the counter has
    reached [CONSEC_FRAMES] and the state is Drowsy. *)
Definition closed_progress (cfg : Config) (n : nat) (cs : ClassificationState) : Prop :=
  state cs <> NoFace
  /\ (n < CONSEC_FRAMES cfg ->
      drowsy_count (counters cs) = n /\ state cs <> Drowsy)
  /\ (CONSEC_FRAMES cfg <= n ->
      CONSEC_FRAMES cfg <= drowsy_count (counters cs) /\ state cs = Drowsy).

(** A run of quiet frames entered in state Drowsy, [n] of them done:
    before the [CONSEC_FRAMES]-th frame the state is still Drowsy and the
    counter has come down by [n]; from it on the state is Attentive. *)
Definition exit_progress (cfg : Config) (n : nat) (cs : ClassificationState) : Prop :=
  (n < CONSEC_FRAMES cfg ->
   state cs = Drowsy
   /\ Nat.min (drowsy_count (counters cs)) (CONSEC_FRAMES cfg) = CONSEC_FRAMES cfg - n)
  /\ (CONSEC_FRAMES cfg <= n -> state cs = Attentive).


(** The classifier's state once a whole stream is processed. *)
Definition final (cfg : Config) (cs : ClassificationState)
    (stream : list (nat * Observation)) : ClassificationState :=
  foldl (fun acc f => classify cfg f.1 acc f.2) cs stream.

(** Kinds of frames in a metric stream: a face on which no condition
    qualifies; a face with the eye ratio below its threshold; the latter
    with no other condition qualifying. *)
Definition quiet (cfg : Config) (f : nat * Observation) : bool :=
  match f.2 with
  | Present m =>
      negb (drowsy_condition cfg m) && negb (yawning_condition cfg m)
      && negb (distracted_condition cfg m)
  | Absent => false
  end.

Definition eyes_closed (cfg : Config) (f : nat * Observation) : bool :=
  match f.2 with
  | Present m => drowsy_condition cfg m
  | Absent => false
  end.

Definition drowsy_only (cfg : Config) (f : nat * Observation) : bool :=
  match f.2 with
  | Present m =>
      drowsy_condition cfg m && negb (yawning_condition cfg m)
      && negb (distracted_condition cfg m)
  | Absent => false
  end.

(** A configuration with the documented defaults, an angle threshold of 20
    degrees and the debounce window of 15 frames the spec gives as example;
    and sample frames for it. *)
Definition example_config : Config := default_config 20 15.

Definition quiet_frame (t : nat) : nat * Observation :=
  (t, Present {| ear := 3 # 10; mar := 2 # 10; head_deviation := 5; timestamp := t |}).

Definition closed_frame (t : nat) : nat * Observation :=
  (t, Present {| ear := 1 # 10; mar := 2 # 10; head_deviation := 5; timestamp := t |}).


(** Modelled from the spec: the backend's error taxonomy (7). *)
Inductive Error := DecodeError | EmitFailure | SessionTeardownError.

Inductive Outcome (A : Type) :=
| Ok (a : A)
| Fail (e : Error).
Arguments Ok {A} a.
Arguments Fail {A} e.

(** Modelled from the spec: the inbound event the backend consumes, with
    the session, sequence number and capture time of the frame (3, 6). *)
Record Inbound := {
  in_session : nat;
  in_frame : string;
  in_sequence : nat;
  in_captured_at : nat
}.

(** Modelled from the spec: what the backend's ResultEmitter packages
    (4.5). *)
Record Result := {
  status : State;
  ear_score : Q;
  mar_score : Q;
  res_timestamp : nat;
  session_id : nat
}.

(** Modelled from the spec: the outbound event
    [{status, ear_score, mar_score}] the backend sends for a package (6). *)
Definition outbound_event (r : Result) : gmap string App.JsVal :=
  {[ "status" := App.JStr (state_name (status r));
     "ear_score" := App.JNum (ear_score r);
     "mar_score" := App.JNum (mar_score r) ]}.

(** Modelled from the spec: the backend's per-connection Session (3). *)
Record Session := {
  sid : nat;
  config : Config;
  classification : ClassificationState
}.

Section Capabilities.

(** The image codec, the landmark detector and the metric formulas are
    capabilities the pipeline calls; [None] is a payload that does not
    decode, respectively the absence signal. *)
Context {Raster LandmarkSet : Type}.
Variable decode : string -> option Raster.
Variable detect : Raster -> option LandmarkSet.
Variable compute_metrics : LandmarkSet -> nat -> option Metrics.

(** Modelled from the spec: the Frame the backend creates on ingestion
    (3). *)
Record Frame := {
  image : Raster;
  frame_session : nat;
  sequence : nat;
  captured_at : nat
}.

(** Modelled from the spec: the backend's FrameIngestor (4.1). It "fails
    with DecodeError on malformed/empty payload". *)
Definition ingest (inb : Inbound) : Outcome Frame :=
  if decide (in_frame inb = "") then Fail DecodeError
  else match decode (in_frame inb) with
       | Some img =>
           Ok {| image := img;
                 frame_session := in_session inb;
                 sequence := in_sequence inb;
                 captured_at := in_captured_at inb |}
       | None => Fail DecodeError
       end.

(** Modelled from the spec: the backend's LandmarkProvider call followed
    by its MetricComputer (4.2, 4.3); a landmark set that lacks required
    points counts as absent. *)
Definition observe (f : Frame) : Observation :=
  match detect (image f) with
  | Some lm =>
      match compute_metrics lm (captured_at f) with
      | Some m => Present m
      | None => Absent
      end
  | None => Absent
  end.

(** Modelled from the spec: the package of the backend's ResultEmitter for
    a processed frame (4.5). The spec names no scores for a frame without metrics; they are
    taken as 0. *)
Definition package (s : Session) (f : Frame) (obs : Observation) : Result :=
  {| status := state (classification s);
     ear_score := match obs with Present m => ear m | Absent => 0 end;
     mar_score := match obs with Present m => mar m | Absent => 0 end;
     res_timestamp := captured_at f;
     session_id := sid s |}.

(** Modelled from the spec: one inbound event through the backend's
    pipeline for a session (2, 4.1): the new session and what is handed to
    the transport. *)
Definition process (s : Session) (inb : Inbound) : Session * list Result :=
  match ingest inb with
  | Fail _ => (s, [])
  | Ok f =>
      let obs := observe f in
      let s' := {| sid := sid s;
                   config := config s;
                   classification :=
                     classify (config s) (captured_at f) (classification s) obs |} in
      (s', [package s' f obs])
  end.

(** Modelled from the spec: the backend processes the frames of a session
    strictly serially (5). *)
Fixpoint process_all (s : Session) (stream : list Inbound) : Session * list Result :=
  match stream with
  | [] => (s, [])
  | inb :: rest =>
      let '(s1, out1) := process s inb in
      let '(s2, out2) := process_all s1 rest in
      (s2, out1 ++ out2)
  end.

(** A payload the ingestor cannot turn into a frame. *)
Definition malformed (payload : string) : Prop :=
  payload = "" \/ decode payload = None.

End Capabilities.

(** Sample capabilities and inputs: a codec that accepts JPEG data URLs
    and passes them on, a detector that finds a face in each of them with
    fixed metrics, a session and two inbound events. *)
Definition example_decode (payload : string) : option string :=
  if String.prefix "data:image/jpeg;base64," payload then Some payload else None.

Definition example_detect (img : string) : option Metrics :=
  Some {| ear := 3 # 10; mar := 2 # 10; head_deviation := 5; timestamp := 0 |}.

Definition example_metrics (lm : Metrics) (t : nat) : option Metrics :=
  Some {| ear := ear lm; mar := mar lm;
          head_deviation := head_deviation lm; timestamp := t |}.

Definition example_session : Session :=
  {| sid := 1; config := example_config; classification := initial_classification |}.

Definition jpeg_inbound (n : nat) : Inbound :=
  {| in_session := 1; in_frame := "data:image/jpeg;base64,/9j/4AAQ";
     in_sequence := n; in_captured_at := 200 * n |}.

Definition broken_inbound (n : nat) : Inbound :=
  {| in_session := 1; in_frame := "data:,";
     in_sequence := n; in_captured_at := 200 * n |}.

End Pipeline.

(** ** Statements about runs of the client *)

Module Capture.

Import App.

(** The capture timer and the streaming flag move together: while
    streaming, the page holds exactly the one interval the ref names, with
    a period of 200 ms; otherwise it holds none. *)
Definition capture_inv (s : AppState) : Prop :=
  0 < next_timer s /\
  if isStreaming s
  then exists id, 0 < id < next_timer s /\
                  captureIntervalRef s = Some id /\
                  timers s = {[ id := 200 ]}
  else captureIntervalRef s = None /\ timers s = ∅.

(** What a tick hands to [socket.emit], given what the webcam offers. *)
Definition frames_of (webcam : option (option string)) : list (string * gmap string string) :=
  match webcam with
  | Some (Some imageSrc) =>
      if decide (imageSrc = "") then [] else [("video_frame", {[ "frame" := imageSrc ]})]
  | _ => []
  end.

(** The component after the socket connected and the user started
    monitoring: [run initial [SocketConnect; ClickToggle]]. *)
Definition streaming_example : AppState :=
  toggleStreaming (on_connection true initial).

(** The two ways the user stops the capture. *)
Definition stops (s : AppState) (ev : Event) : Prop :=
  ev = ClickLogout \/ (ev = ClickToggle /\ isStreaming s = true).

End Capture.

(** ** What the page shows, and the end of the component's life *)

Module View.

Import App.

(** [Math.min] on two numbers. *)
Definition Math_min (x y : Q) : Q := Qmin x y.

(** The children of [<span className="status-icon">]: seven expressions of
    the form [{currentStatus === '...' && '...'}], each rendering its icon
    or nothing. *)
Definition status_icon (currentStatus : string) : list string :=
  (if decide (currentStatus = "Attentive") then ["✓"] else [])
  ++ (if decide (currentStatus = "Drowsy") then ["😴"] else [])
  ++ (if decide (currentStatus = "Yawning") then ["🥱"] else [])
  ++ (if decide (currentStatus = "Distracted") then ["👀"] else [])
  ++ (if decide (currentStatus = "No Face Detected") then ["❓"] else [])
  ++ (if decide (currentStatus = "Waiting...") then ["⏳"] else [])
  ++ (if decide (currentStatus = "Paused") then ["⏸️"] else []).

(** The widths of the two metric bars, in percent:
    [Math.min(earScore * 200, 100)] and [Math.min(marScore * 100, 100)]. *)
Definition ear_bar_width (earScore : Q) : Q := Math_min (earScore * 200) 100.

Definition mar_bar_width (marScore : Q) : Q := Math_min (marScore * 100) 100.

(** The monitoring button: [disabled={!isConnected}] and its label. *)
Definition stream_button_disabled (s : AppState) : bool := negb (isConnected s).

Definition stream_button_label (s : AppState) : string :=
  if isStreaming s then "⏸️ Stop Monitoring" else "▶️ Start Monitoring".

(** [{!isStreaming && <div className="overlay-message">...</div>}] *)
Definition overlay_shown (s : AppState) : bool := negb (isStreaming s).

(** The cleanup the first effect returns, run on unmount:
    [if (socketRef.current) socketRef.current.disconnect()], which takes
    the socket down and lets the [disconnect] handler run, then
    [if (captureIntervalRef.current) clearInterval(captureIntervalRef.current)];
    the ref itself is left as it is. *)
Definition cleanup (s : AppState) : AppState :=
  let s := match socketRef s with
           | Some _ => on_connection false s
           | None => s
           end in
  match interval_set (captureIntervalRef s) with
  | Some id => clearInterval id s
  | None => s
  end.

(** The chart point a [status_update] event adds, if the event is within
    the contract; and the points of a sequence of events, in order. *)
Definition point_of (ev : Event) : option ChartPoint :=
  match ev with
  | StatusUpdate data now =>
      match data !! "status", data !! "ear_score", data !! "mar_score" with
      | Some (JStr status), Some (JNum ear_score), Some (JNum mar_score) =>
          Some {| time := now;
                  score := Math_round (attentivenessScore status ear_score mar_score);
                  ear := ear_score * 100;
                  mar := mar_score * 100 |}
      | _, _, _ => None
      end
  | _ => None
  end.

Definition points_of (evs : list Event) : list ChartPoint := omap point_of evs.

(** The status a [status_update] event carries. *)
Definition status_of (ev : Event) : option string :=
  match ev with
  | StatusUpdate data _ =>
      match data !! "status" with
      | Some (JStr status) => Some status
      | _ => None
      end
  | _ => None
  end.

(** The statuses the badge has an icon for: the keys of [STATUS_COLORS] and
    the two the component sets itself. *)
Definition known_statuses : list string :=
  ["Attentive"; "Drowsy"; "Yawning"; "Distracted"; "No Face Detected";
   "Waiting..."; "Paused"].

(** An emitted event that is a [video_frame] with the single field [frame]
    holding a screenshot that is not empty. *)
Definition frame_event (e : string * gmap string string) : Prop :=
  e.1 = "video_frame" /\ exists imageSrc, imageSrc <> "" /\ e.2 = {[ "frame" := imageSrc ]}.

End View.

(** ** Sample runs of the client *)

Module Samples.

Import App Capture View.

Definition jpeg : string := "data:image/jpeg;base64,/9j/4AAQ".

Definition attentive_event : gmap string JsVal :=
  {[ "status" := JStr "Attentive"; "ear_score" := JNum (5 # 16);
     "mar_score" := JNum (1 # 8) ]}.

Definition drowsy_event : gmap string JsVal :=
  {[ "status" := JStr "Drowsy"; "ear_score" := JNum (1 # 8);
     "mar_score" := JNum (1 # 8) ]}.

(** Connect, start monitoring, one frame goes out, a result comes in,
    stop monitoring. *)
Definition session_events : list Event :=
  [ SocketConnect; ClickToggle; Tick 1 (Some (Some jpeg));
    StatusUpdate attentive_event "10:15:00"; ClickToggle ].

Definition session_state : AppState :=
  toggleStreaming
    (status_update "Attentive" (5 # 16) (1 # 8) "10:15:00"
       (captureFrame (Some (Some jpeg)) streaming_example)).

(** A timer callback, as opposed to the other events. *)
Definition is_tick (ev : Event) : bool :=
  match ev with
  | Tick _ _ => true
  | _ => false
  end.

End Samples.

(** ** Login, registration and the stored session *)

Module Auth.

(** [const API_URL = 'http://localhost:5000'] *)
Definition API_URL : string := "http://localhost:5000".

(** [authForm] *)
Record Form := {
  email : string;
  password : string;
  name : string
}.

Definition empty_form : Form := {| email := ""; password := ""; name := "" |}.

(** [authMode]: 'login' or 'register'. *)
Inductive Mode := login | register.

(** What is passed to [fetch]: the address, the method, the content type
    header and the object given to [JSON.stringify] as body. *)
Record Request := {
  url : string;
  method : string;
  content_type : string;
  body : gmap string string
}.

Definition login_request (f : Form) : Request :=
  {| url := API_URL ++ "/api/login";
     method := "POST";
     content_type := "application/json";
     body := {[ "email" := email f; "password" := password f ]} |}.

Definition register_request (f : Form) : Request :=
  {| url := API_URL ++ "/api/register";
     method := "POST";
     content_type := "application/json";
     body := {[ "email" := email f; "password" := password f; "name" := name f ]} |}.

(** A string or null used as a condition: null and the empty string are
    falsy. *)
Definition truthy (v : option string) : bool :=
  match v with
  | Some x => if decide (x = "") then false else true
  | None => false
  end.

(** A JS value that may be [undefined] or [null]. *)
Inductive Js (A : Type) :=
| Undefined
| Null
| Value (a : A).

Arguments Undefined {A}.
Arguments Null {A}.
Arguments Value {A} a.

(** The string [localStorage.setItem] stores for its second argument: the
    argument converted to a string, which for [undefined] (here [None]) is
    the text 'undefined'. *)
Definition String_of (v : option string) : string := default "undefined" v.

Section Json.

(** The user object of a login reply is kept as the server sent it: a
    [User] is any value that is neither [undefined] nor [null].
    [JSON.stringify] and [JSON.parse] on such values are the platform's:
    [parse] gives [None] where [JSON.parse] throws and [Some None] where it
    returns [null]. [TypeError_message v] is the message of the TypeError
    thrown on reading a property of [v], which is 'undefined' or 'null';
    its wording is the engine's. *)
Context {User : Type}.
Variable stringify : User -> string.
Variable parse : string -> option (option User).
Variable TypeError_message : string -> string.

(** [JSON.stringify(v)], which gives [undefined] back for [undefined]. *)
Definition JSON_stringify (v : Js User) : option string :=
  match v with
  | Undefined => None
  | Null => Some "null"
  | Value u => Some (stringify u)
  end.

(** [JSON.parse(text)]; [None] where it throws. *)
Definition JSON_parse (text : string) : option (Js User) :=
  match parse text with
  | Some (Some u) => Some (Value u)
  | Some None => Some Null
  | None => None
  end.

(** [v.email] as far as the handler depends on it: the message of the
    TypeError thrown when [v] is [undefined] or [null], [None] when the
    read succeeds. *)
Definition read_email (v : Js User) : option string :=
  match v with
  | Undefined => Some (TypeError_message "undefined")
  | Null => Some (TypeError_message "null")
  | Value _ => None
  end.

(** The fields the handlers read of the parsed reply body [data]:
    [error] with [None] for a missing field; [access_token] by the string
    it converts to, with [None] for a missing field; [user] as it is. *)
Record Data := {
  error : option string;
  access_token : option string;
  data_user : Js User
}.

(** How the awaited part of a handler ends. [Threw]: the [try] block
    throws an error carrying [message] before it has written anything
    ([fetch] or [response.json()] rejects, or the body is [null], so that
    the first read of a field throws). [Response]: there is a response
    with its [ok] flag and a parsed body whose fields can be read. *)
Inductive Reply :=
| Threw (message : string)
| Response (ok : bool) (data : Data).

(** The component with its login state: the dashboard state of [App], the
    remaining [useState] variables, the browser's [localStorage], the
    handlers suspended at an [await] (which handler, and the [authForm] its
    closure holds), and what was passed to [fetch] and to [alert]. *)
Record AuthState := {
  app : App.AppState;
  user : Js User;
  showAuthModal : bool;
  authMode : Mode;
  authForm : Form;
  authError : string;
  authLoading : bool;
  localStorage : gmap string string;
  awaiting : list (Mode * Form);
  requests : list Request;
  alerts : list string
}.

Definition initial (stored : gmap string string) : AuthState :=
  {| app := App.initial;
     user := Null;
     showAuthModal := false;
     authMode := login;
     authForm := empty_form;
     authError := "";
     authLoading := false;
     localStorage := stored;
     awaiting := [];
     requests := [];
     alerts := [] |}.

(** A write to the dashboard part of the state. *)
Definition on_app (f : App.AppState -> App.AppState) (s : AuthState) : AuthState :=
  {| app := f (app s); user := user s; showAuthModal := showAuthModal s;
     authMode := authMode s; authForm := authForm s; authError := authError s;
     authLoading := authLoading s; localStorage := localStorage s;
     awaiting := awaiting s; requests := requests s; alerts := alerts s |}.

Definition setUser (v : Js User) (s : AuthState) : AuthState :=
  {| app := app s; user := v; showAuthModal := showAuthModal s;
     authMode := authMode s; authForm := authForm s; authError := authError s;
     authLoading := authLoading s; localStorage := localStorage s;
     awaiting := awaiting s; requests := requests s; alerts := alerts s |}.

Definition setShowAuthModal (v : bool) (s : AuthState) : AuthState :=
  {| app := app s; user := user s; showAuthModal := v;
     authMode := authMode s; authForm := authForm s; authError := authError s;
     authLoading := authLoading s; localStorage := localStorage s;
     awaiting := awaiting s; requests := requests s; alerts := alerts s |}.

Definition setAuthMode (v : Mode) (s : AuthState) : AuthState :=
  {| app := app s; user := user s; showAuthModal := showAuthModal s;
     authMode := v; authForm := authForm s; authError := authError s;
     authLoading := authLoading s; localStorage := localStorage s;
     awaiting := awaiting s; requests := requests s; alerts := alerts s |}.

Definition setAuthForm (v : Form) (s : AuthState) : AuthState :=
  {| app := app s; user := user s; showAuthModal := showAuthModal s;
     authMode := authMode s; authForm := v; authError := authError s;
     authLoading := authLoading s; localStorage := localStorage s;
     awaiting := awaiting s; requests := requests s; alerts := alerts s |}.

Definition setAuthError (v : string) (s : AuthState) : AuthState :=
  {| app := app s; user := user s; showAuthModal := showAuthModal s;
     authMode := authMode s; authForm := authForm s; authError := v;
     authLoading := authLoading s; localStorage := localStorage s;
     awaiting := awaiting s; requests := requests s; alerts := alerts s |}.

Definition setAuthLoading (v : bool) (s : AuthState) : AuthState :=
  {| app := app s; user := user s; showAuthModal := showAuthModal s;
     authMode := authMode s; authForm := authForm s; authError := authError s;
     authLoading := v; localStorage := localStorage s;
     awaiting := awaiting s; requests := requests s; alerts := alerts s |}.

Definition set_localStorage (v : gmap string string) (s : AuthState) : AuthState :=
  {| app := app s; user := user s; showAuthModal := showAuthModal s;
     authMode := authMode s; authForm := authForm s; authError := authError s;
     authLoading := authLoading s; localStorage := v;
     awaiting := awaiting s; requests := requests s; alerts := alerts s |}.

Definition set_awaiting (v : list (Mode * Form)) (s : AuthState) : AuthState :=
  {| app := app s; user := user s; showAuthModal := showAuthModal s;
     authMode := authMode s; authForm := authForm s; authError := authError s;
     authLoading := authLoading s; localStorage := localStorage s;
     awaiting := v; requests := requests s; alerts := alerts s |}.

(** [fetch(...)]: the request goes out. *)
Definition fetch (r : Request) (s : AuthState) : AuthState :=
  {| app := app s; user := user s; showAuthModal := showAuthModal s;
     authMode := authMode s; authForm := authForm s; authError := authError s;
     authLoading := authLoading s; localStorage := localStorage s;
     awaiting := awaiting s; requests := requests s ++ [r]; alerts := alerts s |}.

(** [alert(text)] *)
Definition alert (text : string) (s : AuthState) : AuthState :=
  {| app := app s; user := user s; showAuthModal := showAuthModal s;
     authMode := authMode s; authForm := authForm s; authError := authError s;
     authLoading := authLoading s; localStorage := localStorage s;
     awaiting := awaiting s; requests := requests s; alerts := alerts s ++ [text] |}.

(** [localStorage.getItem], [setItem] and [removeItem]. *)
Definition getItem (key : string) (s : AuthState) : option string :=
  localStorage s !! key.

Definition setItem (key value : string) (s : AuthState) : AuthState :=
  set_localStorage (<[ key := value ]> (localStorage s)) s.

Definition removeItem (key : string) (s : AuthState) : AuthState :=
  set_localStorage (delete key (localStorage s)) s.

(** The second effect, run once on mount: "check for existing login".
    [None] when [JSON.parse(savedUser)] throws; a stored 'null' parses to
    [null], which becomes the user of a logged-in component. *)
Definition check_login (s : AuthState) : option AuthState :=
  let token := getItem "sbms_auth_token" s in
  let savedUser := getItem "sbms_user" s in
  if truthy token && truthy savedUser then
    let s := on_app (App.setIsLoggedIn true) s in
    match savedUser ≫= JSON_parse with
    | Some v => Some (setUser v s)
    | None => None
    end
  else Some s.

(** The component after its first render and effects, over what the
    browser has stored. *)
Definition mount (stored : gmap string string) : option AuthState :=
  check_login (initial stored).

(** [openAuthModal(mode)] *)
Definition openAuthModal (mode : Mode) (s : AuthState) : AuthState :=
  let s := setAuthMode mode s in
  let s := setAuthError "" s in
  let s := setAuthForm empty_form s in
  setShowAuthModal true s.

(** [handleLogin] up to its first [await]: the error is cleared, the
    loading flag raised, the request sent with the e-mail and password of
    the form. *)
Definition handleLogin_submit (s : AuthState) : AuthState :=
  let s := setAuthError "" s in
  let s := setAuthLoading true s in
  let s := fetch (login_request (authForm s)) s in
  set_awaiting (awaiting s ++ [(login, authForm s)]) s.

(** The rest of [handleLogin]: [try] body after the awaits, [catch] and
    [finally]. On an [ok] reply both items are stored and the state is
    set whatever the fields hold; the last statement of the [try] block
    reads [data.user.email], which throws when the reply has no user, and
    the [catch] then shows the message. *)
Definition handleLogin_settle (r : Reply) (s : AuthState) : AuthState :=
  match r with
  | Threw message => setAuthLoading false (setAuthError message s)
  | Response ok data =>
      if negb ok then
        setAuthLoading false
          (setAuthError (App.js_or (error data) "Login failed") s)
      else
        let s := setItem "sbms_auth_token" (String_of (access_token data)) s in
        let s := setItem "sbms_user"
                   (String_of (JSON_stringify (data_user data))) s in
        let s := setUser (data_user data) s in
        let s := on_app (App.setIsLoggedIn true) s in
        let s := setShowAuthModal false s in
        let s := setAuthForm empty_form s in
        let s := match read_email (data_user data) with
                 | Some message => setAuthError message s
                 | None => s
                 end in
        setAuthLoading false s
  end.

(** [handleRegister] up to its first [await]. *)
Definition handleRegister_submit (s : AuthState) : AuthState :=
  let s := setAuthError "" s in
  let s := setAuthLoading true s in
  let s := fetch (register_request (authForm s)) s in
  set_awaiting (awaiting s ++ [(register, authForm s)]) s.

(** The rest of [handleRegister]; [held] is the [authForm] of the render
    the handler was created in, which [{ ...authForm, name: '' }] reads. *)
Definition handleRegister_settle (held : Form) (r : Reply) (s : AuthState) : AuthState :=
  match r with
  | Threw message => setAuthLoading false (setAuthError message s)
  | Response ok data =>
      if negb ok then
        setAuthLoading false
          (setAuthError (App.js_or (error data) "Registration failed") s)
      else
        let s := setAuthMode login s in
        let s := setAuthError "" s in
        let s := alert "Registration successful! Please login." s in
        let s := setAuthForm {| email := email held; password := password held;
                                name := "" |} s in
        setAuthLoading false s
  end.

(** [handleLogout], in full. *)
Definition handleLogout (s : AuthState) : AuthState :=
  let s := removeItem "sbms_auth_token" s in
  let s := removeItem "sbms_user" s in
  let s := on_app (App.setIsLoggedIn false) s in
  let s := setUser Null s in
  let s := on_app App.clear_capture_interval s in
  on_app (App.setIsStreaming false) s.

(** The [required] inputs of the form the modal shows in mode [m]. *)
Definition form_complete (m : Mode) (f : Form) : bool :=
  bool_decide (email f <> "") && bool_decide (password f <> "")
  && match m with
     | register => bool_decide (name f <> "")
     | login => true
     end.

(** What the user and the network can do to the component. *)
Inductive Event :=
| ClickLogin
| CloseModal
| SwitchMode
| TypeEmail (v : string)
| TypePassword (v : string)
| TypeName (v : string)
| Submit
| Settle (k : nat) (r : Reply)
| ClickLogout
| Dashboard (ev : App.Event).

(** One event; [None] when it cannot occur. The Login button is rendered
    when logged out and Logout when logged in; the modal's controls exist
    while it is shown, the name field in register mode only; the submit
    button is [disabled={authLoading}] and the browser holds back a form
    with an empty [required] field (its check of the e-mail syntax is not
    modelled: every non-empty address passes); a reply settles a handler
    that is waiting. The dashboard's own events are those of [App.step],
    without its two stand-ins for login and logout. *)
Definition step (s : AuthState) (ev : Event) : option AuthState :=
  match ev with
  | ClickLogin =>
      if App.isLoggedIn (app s) then None else Some (openAuthModal login s)
  | CloseModal =>
      if showAuthModal s then Some (setShowAuthModal false s) else None
  | SwitchMode =>
      if showAuthModal s then
        Some (setAuthMode (match authMode s with
                           | login => register
                           | register => login
                           end) s)
      else None
  | TypeEmail v =>
      if showAuthModal s then
        Some (setAuthForm {| email := v; password := password (authForm s);
                             name := name (authForm s) |} s)
      else None
  | TypePassword v =>
      if showAuthModal s then
        Some (setAuthForm {| email := email (authForm s); password := v;
                             name := name (authForm s) |} s)
      else None
  | TypeName v =>
      match showAuthModal s, authMode s with
      | true, register =>
          Some (setAuthForm {| email := email (authForm s);
                               password := password (authForm s);
                               name := v |} s)
      | _, _ => None
      end
  | Submit =>
      if showAuthModal s && negb (authLoading s)
         && form_complete (authMode s) (authForm s)
      then Some (match authMode s with
                 | login => handleLogin_submit s
                 | register => handleRegister_submit s
                 end)
      else None
  | Settle k r =>
      match awaiting s !! k with
      | Some (login, _) =>
          Some (handleLogin_settle r (set_awaiting (delete k (awaiting s)) s))
      | Some (register, held) =>
          Some (handleRegister_settle held r (set_awaiting (delete k (awaiting s)) s))
      | None => None
      end
  | ClickLogout =>
      if App.isLoggedIn (app s) then Some (handleLogout s) else None
  | Dashboard ev =>
      match ev with
      | App.LoginOk => None
      | App.ClickLogout => None
      | _ => match App.step (app s) ev with
             | Some a => Some (on_app (fun _ => a) s)
             | None => None
             end
      end
  end.

Fixpoint run (s : AuthState) (evs : list Event) : option AuthState :=
  match evs with
  | [] => Some s
  | ev :: evs' =>
      match step s ev with
      | Some s' => run s' evs'
      | None => None
      end
  end.

(** What holds of the login state throughout: at most one request is in
    flight, and the loading flag is up exactly while one is; while the
    component is logged out its user is [null]; while it is logged in both
    items are in [localStorage]. *)
Definition auth_inv (s : AuthState) : Prop :=
  length (awaiting s) <= 1
  /\ (authLoading s = true <-> awaiting s <> [])
  /\ (App.isLoggedIn (app s) = false -> user s = Null)
  /\ (App.isLoggedIn (app s) = true ->
      is_Some (localStorage s !! "sbms_auth_token")
      /\ is_Some (localStorage s !! "sbms_user")).

(** An event that types into the form or flips the mode of the modal. *)
Definition is_edit (ev : Event) : bool :=
  match ev with
  | TypeEmail _ | TypePassword _ | TypeName _ | SwitchMode => true
  | _ => false
  end.

End Json.

(** A stand-in for JSON on users given by their name (a quote mark, then
    the name; the text 'null' for [null]), the wording one engine gives
    its TypeError, and sample replies: a login accepted, one refused, and
    an [ok] reply that carries no user. *)
Definition sample_stringify (u : string) : string := String "034" u.

Definition sample_parse (text : string) : option (option string) :=
  if decide (text = "null") then Some None
  else match text with
       | String "034" rest => Some (Some rest)
       | _ => None
       end.

Definition sample_TypeError (v : string) : string :=
  "Cannot read properties of " ++ v ++ " (reading 'email')".

Definition sample_ok : @Reply string :=
  Response true {| error := None; access_token := Some "tok-1";
                   data_user := Value "ann" |}.

Definition sample_refused : @Reply string :=
  Response false {| error := Some "Invalid credentials"; access_token := None;
                    data_user := Undefined |}.

Definition sample_no_user : @Reply string :=
  Response true {| error := None; access_token := Some "tok-1";
                   data_user := Undefined |}.

(** The state a sequence of events leads to from a first visit (nothing
    stored); the initial state if the sequence cannot occur. *)
Definition sample_after (evs : list (@Event string)) : @AuthState string :=
  default (initial ∅) (run sample_stringify sample_TypeError (initial ∅) evs).

(** Opening the modal and filling in the login form; the same for the
    registration form. *)
Definition fill_login : list (@Event string) :=
  [ClickLogin; TypeEmail "ann@example.org"; TypePassword "hunter2"].

Definition fill_register : list (@Event string) :=
  [ClickLogin; SwitchMode; TypeEmail "ann@example.org"; TypePassword "hunter2";
   TypeName "Ann"].

End Auth.

(** * Properties of the dashboard client *)

Section ChartWindow.

Import App.

Lemma slice_last_length {A} (n : nat) (l : list A) :
  length (slice_last n l) = Nat.min n (length l).
Proof. unfold slice_last. rewrite length_drop. lia. Qed.


Lemma slice_last_short {A} (n : nat) (l : list A) :
  length l <= n -> slice_last n l = l.
Proof.
  intros Hle. unfold slice_last.
  replace (length l - n) with 0 by lia. reflexivity.
Qed.

Lemma push_point_length (prev : list ChartPoint) (p : ChartPoint) :
  length (push_point prev p) = Nat.min MAX_CHART_POINTS (S (length prev)).
Proof.
  unfold push_point. rewrite slice_last_length, length_app. cbn [length]. lia.
Qed.


Lemma status_update_chartData (s : AppState) (status now : string) (e m : Q) :
  chartData (status_update status e m now s)
  = push_point (chartData s)
      {| time := now; score := Math_round (attentivenessScore status e m);
         ear := e * 100; mar := m * 100 |}.
Proof. reflexivity. Qed.


(** No other event touches the chart, so the bound holds in every state
    the component reaches. *)
Lemma step_chart_bound (s s' : AppState) (ev : Event) :
  step s ev = Some s' ->
  length (chartData s) <= MAX_CHART_POINTS ->
  length (chartData s') <= MAX_CHART_POINTS.
Proof.
  intros Hstep Hlen. destruct ev; simpl in Hstep.
  - by inversion Hstep.
  - by inversion Hstep.
  - unfold on_status_update in Hstep.
    repeat case_match; try discriminate. inversion Hstep; subst.
    rewrite status_update_chartData, push_point_length. lia.
  - destruct (timers s !! id); [|discriminate]. inversion Hstep; subst.
    unfold captureFrame. repeat case_match; done.
  - destruct (isConnected s); [|discriminate]. inversion Hstep; subst.
    unfold toggleStreaming, clear_capture_interval.
    by destruct (isStreaming s), (interval_set (captureIntervalRef s)).
  - destruct (isLoggedIn s); [|discriminate]. inversion Hstep; subst.
    unfold handleLogout, clear_capture_interval.
    by destruct (interval_set (captureIntervalRef (setIsLoggedIn false s))).
  - by inversion Hstep.
Qed.

Lemma run_chart_bound (evs : list Event) (s s' : AppState) :
  run s evs = Some s' ->
  length (chartData s) <= MAX_CHART_POINTS ->
  length (chartData s') <= MAX_CHART_POINTS.
Proof.
  revert s. induction evs as [|ev evs IH]; intros s Hrun Hlen; simpl in Hrun.
  - by inversion Hrun; subst.
  - destruct (step s ev) as [s1|] eqn:Hstep; [|discriminate].
    eapply IH; [exact Hrun|]. eapply step_chart_bound; eauto.
Qed.

End ChartWindow.

Section Attentiveness.

Import App.
Local Open Scope Q_scope.

Lemma Math_max_bounds (lo x hi : Q) :
  lo <= hi -> x <= hi -> lo <= Math_max lo x /\ Math_max lo x <= hi.
Proof.
  intros Hlo Hx. unfold Math_max. split.
  - apply Q.le_max_l.
  - apply Q.max_lub; assumption.
Qed.

(** The range holds on the part of the input where the Drowsy branch stays
    below its cap: an eye ratio of at most 1/2. *)
Lemma attentiveness_in_range (status : string) (ear_score mar_score : Q) :
  ear_score <= 1 # 2 -> 0 <= mar_score ->
  0 <= attentivenessScore status ear_score mar_score <= 100.
Proof.
  intros He Hm. unfold attentivenessScore.
  repeat case_decide.
  - destruct (Math_max_bounds 20 (ear_score * 200) 100) as [H1 H2]; lra.
  - destruct (Math_max_bounds 30 (100 - mar_score * 100) 100) as [H1 H2]; lra.
  - lra.
  - lra.
  - lra.
Qed.

(** C8. A [status_update] with status Drowsy, [ear_score] 0.75 and
    [mar_score] 0 satisfies the claim's premises, and the handler computes
    [max(20, 0.75 * 200)] = 150 for it: the chart receives a score of 150,
    outside 0..100. *)
Theorem drowsy_score_exceeds_range :
  0 <= 3 # 4 /\ 0 <= 0
  /\ attentivenessScore "Drowsy" (3 # 4) 0 == 150
  /\ ~ attentivenessScore "Drowsy" (3 # 4) 0 <= 100
  /\ (fun s' => map score (chartData s'))
       <$> on_status_update
             {[ "status" := JStr "Drowsy"; "ear_score" := JNum (3 # 4);
                "mar_score" := JNum 0 ]}
             "10:15:00" initial
     = Some [150%Z].
Proof.
  split; [discriminate|]. split; [discriminate|].
  split; [reflexivity|]. split; [|reflexivity].
  intros H. vm_compute in H. apply H. reflexivity.
Qed.

End Attentiveness.

Section CaptureTimer.

Import App Capture.

Lemma initial_capture_inv : capture_inv initial.
Proof. split; [cbn; lia | cbn; done]. Qed.

Lemma clear_capture_interval_spec (s : AppState) :
  capture_inv s ->
  timers (clear_capture_interval s) = ∅
  /\ captureIntervalRef (clear_capture_interval s) = None
  /\ next_timer (clear_capture_interval s) = next_timer s.
Proof.
  intros [_ Hinv]. unfold clear_capture_interval.
  destruct (isStreaming s).
  - destruct Hinv as (id & Hid & Href & Htim). rewrite Href. cbn.
    case_decide; [lia|]. cbn. rewrite Htim. split; [apply delete_singleton_eq | done].
  - destruct Hinv as [Href Htim]. rewrite Href. cbn. done.
Qed.

Lemma toggleStreaming_inv (s : AppState) :
  capture_inv s -> capture_inv (toggleStreaming s).
Proof.
  intros Hinv. unfold toggleStreaming. destruct (isStreaming s) eqn:Hon.
  - destruct (clear_capture_interval_spec s Hinv) as (Htim & Href & Hnext).
    destruct Hinv as [Hpos _]. split; cbn; [by rewrite Hnext | done].
  - destruct Hinv as [Hpos Hinv]. rewrite Hon in Hinv. destruct Hinv as [_ Htim].
    split; cbn; [lia|].
    exists (next_timer s). rewrite Htim. repeat split; try lia.
Qed.

Lemma handleLogout_inv (s : AppState) :
  capture_inv s -> capture_inv (handleLogout s).
Proof.
  intros Hinv. unfold handleLogout.
  assert (Hinv' : capture_inv (setIsLoggedIn false s)) by exact Hinv.
  destruct (clear_capture_interval_spec _ Hinv') as (Htim & Href & Hnext).
  destruct Hinv as [Hpos _]. split; cbn; [|done].
  rewrite Hnext. exact Hpos.
Qed.

Lemma toggleStreaming_stops (s : AppState) :
  isStreaming s = true -> isStreaming (toggleStreaming s) = false.
Proof. intros Hon. unfold toggleStreaming. by rewrite Hon. Qed.

Lemma handleLogout_stops (s : AppState) : isStreaming (handleLogout s) = false.
Proof. reflexivity. Qed.

Lemma clear_capture_interval_sent (s : AppState) :
  sent (clear_capture_interval s) = sent s
  /\ chartData (clear_capture_interval s) = chartData s.
Proof.
  unfold clear_capture_interval. by destruct (interval_set (captureIntervalRef s)).
Qed.

Lemma toggleStreaming_sent (s : AppState) :
  sent (toggleStreaming s) = sent s /\ chartData (toggleStreaming s) = chartData s.
Proof.
  unfold toggleStreaming. destruct (isStreaming s); [|done].
  cbn. apply clear_capture_interval_sent.
Qed.

Lemma handleLogout_sent (s : AppState) :
  sent (handleLogout s) = sent s /\ chartData (handleLogout s) = chartData s.
Proof.
  unfold handleLogout. cbn. apply (clear_capture_interval_sent (setIsLoggedIn false s)).
Qed.

Lemma captureFrame_sent (webcam : option (option string)) (s : AppState) :
  captureFrame webcam s = s \/
  exists imageSrc, webcam = Some (Some imageSrc) /\ imageSrc <> "" /\
    socketRef s = Some true /\
    captureFrame webcam s = emit "video_frame" {[ "frame" := imageSrc ]} s.
Proof.
  unfold captureFrame.
  destruct webcam as [[img|]|]; destruct (socketRef s) as [[|]|]; auto.
  case_decide; [auto|]. right. exists img. done.
Qed.

Lemma step_capture_inv (s s' : AppState) (ev : Event) :
  capture_inv s -> step s ev = Some s' -> capture_inv s'.
Proof.
  intros Hinv Hstep. destruct ev; simpl in Hstep.
  - by inversion Hstep; subst.
  - by inversion Hstep; subst.
  - unfold on_status_update in Hstep.
    repeat case_match; try discriminate. by inversion Hstep; subst.
  - destruct (timers s !! id); [|discriminate]. inversion Hstep; subst.
    destruct (captureFrame_sent webcam s) as [->|(img & _ & _ & _ & ->)]; done.
  - destruct (isConnected s); [|discriminate]. inversion Hstep; subst.
    by apply toggleStreaming_inv.
  - destruct (isLoggedIn s); [|discriminate]. inversion Hstep; subst.
    by apply handleLogout_inv.
  - by inversion Hstep; subst.
Qed.

Lemma run_capture_inv (evs : list Event) (s s' : AppState) :
  capture_inv s -> run s evs = Some s' -> capture_inv s'.
Proof.
  revert s. induction evs as [|ev evs IH]; intros s Hinv Hrun; simpl in Hrun.
  - by inversion Hrun; subst.
  - destruct (step s ev) as [s1|] eqn:Hstep; [|discriminate].
    eapply IH; [|exact Hrun]. eapply step_capture_inv; eauto.
Qed.

(** Only a tick of a registered timer, with a connected socket and a
    screenshot at hand, adds to what was emitted; it adds one
    [video_frame]. *)
Lemma step_sent (s s' : AppState) (ev : Event) :
  step s ev = Some s' ->
  sent s' = sent s \/
  exists id imageSrc,
    ev = Tick id (Some (Some imageSrc)) /\ imageSrc <> "" /\
    is_Some (timers s !! id) /\ socketRef s = Some true /\
    sent s' = sent s ++ [("video_frame", {[ "frame" := imageSrc ]})].
Proof.
  intros Hstep. destruct ev; simpl in Hstep.
  - left. by inversion Hstep; subst.
  - left. by inversion Hstep; subst.
  - left. unfold on_status_update in Hstep.
    repeat case_match; try discriminate. by inversion Hstep; subst.
  - destruct (timers s !! id) as [period|] eqn:Htim; [|discriminate].
    inversion Hstep; subst.
    destruct (captureFrame_sent webcam s) as [->|(img & -> & Hne & Hsock & ->)];
      [by left|].
    right. exists id, img. rewrite Htim. eauto 10.
  - left. destruct (isConnected s); [|discriminate]. inversion Hstep; subst.
    apply toggleStreaming_sent.
  - left. destruct (isLoggedIn s); [|discriminate]. inversion Hstep; subst.
    apply handleLogout_sent.
  - left. by inversion Hstep; subst.
Qed.

(** While the capture is off, nothing but a click on the monitoring button
    turns it on again. *)
Lemma step_stays_stopped (s s' : AppState) (ev : Event) :
  isStreaming s = false -> ev <> ClickToggle -> step s ev = Some s' ->
  isStreaming s' = false.
Proof.
  intros Hoff Hev Hstep. destruct ev; simpl in Hstep; try done.
  - by inversion Hstep; subst.
  - by inversion Hstep; subst.
  - unfold on_status_update in Hstep.
    repeat case_match; try discriminate. by inversion Hstep; subst.
  - destruct (timers s !! id); [|discriminate]. inversion Hstep; subst.
    destruct (captureFrame_sent webcam s) as [->|(img & _ & _ & _ & ->)]; done.
  - destruct (isLoggedIn s); [|discriminate]. by inversion Hstep; subst.
  - by inversion Hstep; subst.
Qed.

Lemma run_stopped_silent (rest : list Event) (s s' : AppState) :
  capture_inv s -> isStreaming s = false -> ClickToggle ∉ rest ->
  run s rest = Some s' ->
  sent s' = sent s /\ isStreaming s' = false /\ timers s' = ∅.
Proof.
  revert s. induction rest as [|ev rest IH]; intros s Hinv Hoff Hno Hrun;
    simpl in Hrun.
  - inversion Hrun; subst. destruct Hinv as [_ Hinv]. rewrite Hoff in Hinv.
    by destruct Hinv.
  - destruct (step s ev) as [s1|] eqn:Hstep; [|discriminate].
    apply not_elem_of_cons in Hno as [Hev Hno].
    assert (Hoff1 : isStreaming s1 = false)
      by (eapply step_stays_stopped; eauto).
    assert (Hinv1 : capture_inv s1) by (eapply step_capture_inv; eauto).
    assert (Hsent : sent s1 = sent s).
    { destruct (step_sent _ _ _ Hstep) as [|(id & img & -> & _ & [p Hp] & _)];
        [done|].
      destruct Hinv as [_ Hinv]. rewrite Hoff in Hinv. destruct Hinv as [_ Hempty].
      rewrite Hempty in Hp. by rewrite lookup_empty in Hp. }
    destruct (IH s1 Hinv1 Hoff1 Hno Hrun) as (-> & ? & ?). by rewrite Hsent.
Qed.

Lemma stops_stop (s s' : AppState) (ev : Event) :
  capture_inv s -> stops s ev -> step s ev = Some s' ->
  isStreaming s' = false /\ captureIntervalRef s' = None /\ timers s' = ∅.
Proof.
  intros Hinv Hstop Hstep.
  assert (Hinv' : capture_inv s') by (eapply step_capture_inv; eauto).
  assert (Hoff : isStreaming s' = false).
  { destruct Hstop as [->|[-> Hon]]; simpl in Hstep.
    - destruct (isLoggedIn s); [|discriminate]. by inversion Hstep; subst.
    - destruct (isConnected s); [|discriminate]. inversion Hstep; subst.
      by apply toggleStreaming_stops. }
  destruct Hinv' as [_ Hinv']. rewrite Hoff in Hinv'. by destruct Hinv'.
Qed.

End CaptureTimer.

Section CaptureClaims.

Import App Capture.

(** C5, as stated, fails: the component is streaming with a connected
    socket, the capture timer fires, and because [getScreenshot()] returns
    null nothing is emitted on that tick. *)
Lemma tick_without_screenshot_emits_nothing :
  run initial [SocketConnect; ClickToggle] = Some streaming_example
  /\ isStreaming streaming_example = true
  /\ socketRef streaming_example = Some true
  /\ timers streaming_example !! 1 = Some 200
  /\ exists s', step streaming_example (Tick 1 (Some None)) = Some s'
                /\ sent s' = sent streaming_example.
Proof.
  repeat split; try reflexivity.
  eexists. split; reflexivity.
Qed.

(** C5, amended. While streaming is active and the socket is connected,
    the page holds exactly one capture timer, of period 200 ms, and each of
    its ticks on which the webcam yields a screenshot (not null, not empty)
    emits exactly one [video_frame] event whose payload has the single
    field [frame] holding that screenshot; a tick without a screenshot
    emits nothing. *)
Theorem capture_tick_emits_one_frame (evs : list Event) (s : AppState) :
  run initial evs = Some s ->
  isStreaming s = true ->
  socketRef s = Some true ->
  exists id,
    captureIntervalRef s = Some id /\ timers s = {[ id := 200 ]} /\
    (forall imageSrc, imageSrc <> "" ->
       exists s' payload,
         step s (Tick id (Some (Some imageSrc))) = Some s' /\
         sent s' = sent s ++ [("video_frame", payload)] /\
         dom payload = {[ "frame" ]} /\ payload !! "frame" = Some imageSrc) /\
    (forall webcam, ~ (exists imageSrc, webcam = Some (Some imageSrc) /\ imageSrc <> "") ->
       exists s', step s (Tick id webcam) = Some s' /\ sent s' = sent s).
Proof.
  intros Hrun Hon Hsock.
  pose proof (run_capture_inv _ _ _ initial_capture_inv Hrun) as [_ Hinv].
  rewrite Hon in Hinv. destruct Hinv as (id & _ & Href & Htim).
  exists id. split; [exact Href|]. split; [exact Htim|]. split.
  - intros img Hne. exists (captureFrame (Some (Some img)) s), {[ "frame" := img ]}.
    cbn [step]. rewrite Htim, lookup_singleton_eq.
    split; [reflexivity|].
    unfold captureFrame. rewrite Hsock. case_decide; [done|].
    split; [reflexivity|]. split; [apply dom_singleton_L | apply lookup_singleton_eq].
  - intros webcam Hnone. exists (captureFrame webcam s).
    cbn [step]. rewrite Htim, lookup_singleton_eq. split; [reflexivity|].
    destruct (captureFrame_sent webcam s) as [->|(img & -> & Hne & _)]; [done|].
    exfalso. apply Hnone. eauto.
Qed.

Lemma capture_tick_emits_one_frame_witness :
  exists id,
    captureIntervalRef streaming_example = Some id /\
    timers streaming_example = {[ id := 200 ]} /\
    (forall imageSrc, imageSrc <> "" ->
       exists s' payload,
         step streaming_example (Tick id (Some (Some imageSrc))) = Some s' /\
         sent s' = sent streaming_example ++ [("video_frame", payload)] /\
         dom payload = {[ "frame" ]} /\ payload !! "frame" = Some imageSrc) /\
    (forall webcam, ~ (exists imageSrc, webcam = Some (Some imageSrc) /\ imageSrc <> "") ->
       exists s', step streaming_example (Tick id webcam) = Some s' /\
                  sent s' = sent streaming_example).
Proof.
  apply (capture_tick_emits_one_frame [SocketConnect; ClickToggle] streaming_example);
    reflexivity.
Defined.

(** C10. In every state the component reaches, an event is emitted only by
    a capture tick that finds the socket present and connected, a
    screenshot that is not null, and the capture running under the timer
    the ref names. Stopping through [toggleStreaming] or [handleLogout]
    clears that timer: no timer is left, so no tick occurs and nothing is
    emitted until the monitoring button starts the capture again. *)
Theorem video_frame_guarded (evs : list Event) (s s' : AppState) (ev : Event) :
  run initial evs = Some s ->
  step s ev = Some s' ->
  (sent s' <> sent s ->
     exists id imageSrc,
       ev = Tick id (Some (Some imageSrc)) /\ imageSrc <> "" /\
       socketRef s = Some true /\ isStreaming s = true /\
       captureIntervalRef s = Some id /\
       sent s' = sent s ++ [("video_frame", {[ "frame" := imageSrc ]})])
  /\ (stops s ev ->
        isStreaming s' = false /\ captureIntervalRef s' = None /\ timers s' = ∅ /\
        (forall id webcam, step s' (Tick id webcam) = None) /\
        (forall rest s'', ClickToggle ∉ rest -> run s' rest = Some s'' ->
           sent s'' = sent s' /\ timers s'' = ∅)).
Proof.
  intros Hrun Hstep.
  pose proof (run_capture_inv _ _ _ initial_capture_inv Hrun) as Hinv.
  split.
  - intros Hchg.
    destruct (step_sent _ _ _ Hstep) as [|(id & img & -> & Hne & [p Hp] & Hsock & Hsent)];
      [done|].
    destruct Hinv as [_ Hinv]. destruct (isStreaming s).
    + destruct Hinv as (id0 & _ & Href & Htim).
      rewrite Htim in Hp. apply lookup_singleton_Some in Hp as [-> _].
      exists id, img. done.
    + destruct Hinv as [_ Hempty]. rewrite Hempty in Hp.
      by rewrite lookup_empty in Hp.
  - intros Hstop.
    destruct (stops_stop _ _ _ Hinv Hstop Hstep) as (Hoff & Href & Htim).
    assert (Hinv' : capture_inv s') by (eapply step_capture_inv; eauto).
    split; [exact Hoff|]. split; [exact Href|]. split; [exact Htim|]. split.
    + intros id webcam. cbn [step]. by rewrite Htim, lookup_empty.
    + intros rest s'' Hno Hrest.
      destruct (run_stopped_silent rest s' s'' Hinv' Hoff Hno Hrest) as (? & _ & ?).
      done.
Qed.

Lemma video_frame_guarded_witness :
  (sent (toggleStreaming streaming_example) <> sent streaming_example ->
     exists id imageSrc,
       ClickToggle = Tick id (Some (Some imageSrc)) /\ imageSrc <> "" /\
       socketRef streaming_example = Some true /\
       isStreaming streaming_example = true /\
       captureIntervalRef streaming_example = Some id /\
       sent (toggleStreaming streaming_example)
       = sent streaming_example ++ [("video_frame", {[ "frame" := imageSrc ]})])
  /\ (stops streaming_example ClickToggle ->
        isStreaming (toggleStreaming streaming_example) = false /\
        captureIntervalRef (toggleStreaming streaming_example) = None /\
        timers (toggleStreaming streaming_example) = ∅ /\
        (forall id webcam, step (toggleStreaming streaming_example) (Tick id webcam) = None) /\
        (forall rest s'', ClickToggle ∉ rest ->
           run (toggleStreaming streaming_example) rest = Some s'' ->
           sent s'' = sent (toggleStreaming streaming_example) /\ timers s'' = ∅)).
Proof.
  apply (video_frame_guarded [SocketConnect; ClickToggle] streaming_example
           (toggleStreaming streaming_example) ClickToggle); reflexivity.
Defined.

End CaptureClaims.

Section StatusNames.

Import App Pipeline.

Lemma outbound_event_fields (r : Result) :
  outbound_event r !! "status" = Some (JStr (state_name (status r)))
  /\ outbound_event r !! "ear_score" = Some (JNum (ear_score r))
  /\ outbound_event r !! "mar_score" = Some (JNum (mar_score r)).
Proof. unfold outbound_event. by simplify_map_eq. Qed.

Lemma state_name_listed (st : State) :
  state_name st ∈ ["Attentive"; "Drowsy"; "Yawning"; "Distracted"; "NoFace"].
Proof. destruct st; cbn; set_solver. Qed.

(** C1, as stated, fails on the client: the name NoFace is no key of
    [STATUS_COLORS], has no branch in the score mapping and no icon, so a
    status of that name is coloured by the fallback and scored 100 like an
    unknown one; the name the client knows for an absent face is
    'No Face Detected', a key of [STATUS_COLORS] with an icon, scored 0. *)
Lemma noface_name_not_consumed :
  STATUS_COLORS !! "NoFace" = None
  /\ is_Some (STATUS_COLORS !! "No Face Detected")
  /\ statusColor "NoFace" = Colour "#888888"
  /\ View.status_icon "NoFace" = []
  /\ length (View.status_icon "No Face Detected") = 1
  /\ attentivenessScore "NoFace" 0 0 = 100%Q
  /\ attentivenessScore "No Face Detected" 0 0 = 0%Q.
Proof.
  split; [reflexivity|]. split; [by eexists|].
  repeat split; vm_compute; reflexivity.
Qed.

(** C1, amended. Every outbound result event carries exactly the fields
    status, ear_score and mar_score, with one of the five state names as
    status; the client's handler accepts every such event and reads these
    three fields and nothing else. The names the client's colour mapping
    holds are Attentive, Drowsy, Yawning, Distracted and 'No Face Detected'
    (not NoFace); the score mapping has a branch for the last four of them
    and gives every other status 100; the colour lookup gives every other
    status the grey #888888, except the names the mapping inherits from
    [Object.prototype], for which it yields the inherited member. *)
Theorem status_names_consumed :
  (forall r : Result,
     dom (outbound_event r) = {[ "status"; "ear_score"; "mar_score" ]}
     /\ outbound_event r !! "status" = Some (JStr (state_name (status r)))
     /\ state_name (status r) ∈ ["Attentive"; "Drowsy"; "Yawning"; "Distracted"; "NoFace"])
  /\ (forall (r : Result) (now : string) (s : AppState),
        on_status_update (outbound_event r) now s
        = Some (status_update (state_name (status r)) (ear_score r) (mar_score r) now s))
  /\ (forall (data data' : gmap string JsVal) (now : string) (s : AppState),
        data !! "status" = data' !! "status" ->
        data !! "ear_score" = data' !! "ear_score" ->
        data !! "mar_score" = data' !! "mar_score" ->
        on_status_update data now s = on_status_update data' now s)
  /\ dom STATUS_COLORS
     = {[ "Attentive"; "Drowsy"; "Yawning"; "Distracted"; "No Face Detected" ]}
  /\ (forall (status : string) (e m : Q),
        status ∉ ["Drowsy"; "Yawning"; "Distracted"; "No Face Detected"] ->
        attentivenessScore status e m = 100%Q)
  /\ (forall status : string,
        status ∉ dom STATUS_COLORS ->
        (status ∉ Object_prototype_names -> statusColor status = Colour "#888888")
        /\ (status ∈ Object_prototype_names -> statusColor status = Member status)).
Proof.
  split; [|split; [|split; [|split; [|split]]]].
  - intros r. destruct (outbound_event_fields r) as (Hs & _ & _).
    split; [|split; [exact Hs | apply state_name_listed]].
    unfold outbound_event. rewrite !dom_insert_L, dom_singleton_L. set_solver.
  - intros r now s. destruct (outbound_event_fields r) as (Hs & He & Hm).
    unfold on_status_update. by rewrite Hs, He, Hm.
  - intros data data' now s Hs He Hm. unfold on_status_update.
    by rewrite Hs, He, Hm.
  - unfold STATUS_COLORS. cbn [list_to_map foldr uncurry curry fst snd].
    rewrite !dom_insert_L, dom_empty_L. set_solver.
  - intros status e m Hnot. unfold attentivenessScore.
    repeat case_decide; subst; try reflexivity; exfalso; apply Hnot; set_solver.
  - intros status Hnot. unfold statusColor.
    apply not_elem_of_dom in Hnot. rewrite Hnot.
    split; intros Hin; [by rewrite decide_False | by rewrite decide_True].
Qed.

Lemma status_names_consumed_witness :
  on_status_update
    (<[ "session_id" := JNum 7 ]>
       (outbound_event {| status := Drowsy; ear_score := 1 # 8; mar_score := 1 # 4;
                          res_timestamp := 3; session_id := 7 |}))
    "10:15:00" initial
  = on_status_update
      (outbound_event {| status := Drowsy; ear_score := 1 # 8; mar_score := 1 # 4;
                         res_timestamp := 3; session_id := 7 |})
      "10:15:00" initial
  /\ attentivenessScore "NoFace" (1 # 8) (1 # 4) = 100%Q
  /\ statusColor "NoFace" = Colour "#888888"
  /\ statusColor "constructor" = Member "constructor".
Proof.
  destruct status_names_consumed as (_ & _ & Hread & _ & Hscore & Hcolor).
  split; [|split; [|split]].
  - apply Hread; reflexivity.
  - apply Hscore. vm_compute. intros H. by repeat (inversion H as [|? ? ? H']; clear H; rename H' into H).
  - destruct (Hcolor "NoFace") as [Hgrey _];
      [rewrite not_elem_of_dom; reflexivity|].
    apply Hgrey. intros H.
    by repeat (inversion H as [|? ? ? H']; clear H; rename H' into H).
  - destruct (Hcolor "constructor") as [_ Hmember];
      [rewrite not_elem_of_dom; reflexivity|].
    apply Hmember. unfold Object_prototype_names. rewrite elem_of_cons. by left.
Defined.

End StatusNames.

Section Documentation.

Import InfoBox Pipeline.

Lemma Qltb_lt (x y : Q) : Qltb x y = true <-> (x < y)%Q.
Proof. unfold Qltb, Qlt. apply Z.ltb_lt. Qed.

(** C6. The box shown to the user heads its first two items with
    "EAR < 0.22:" and "MAR > 0.6:". Read as rules they are the documented
    defaults: the drowsy condition of the default configuration is
    [ear < 0.22] and its yawning condition is [mar > 0.6], with these
    thresholds and these directions. *)
Theorem info_box_states_default_thresholds :
  headlines = ["EAR < 0.22:"; "MAR > 0.6:"; "Head turned:"]
  /\ stated_rules
     = [ {| metric := "EAR"; cmp := Below; threshold := 22 # 100 |};
         {| metric := "MAR"; cmp := Above; threshold := 6 # 10 |} ]
  /\ forall (angle : Q) (consec : nat) (m : Metrics),
       EAR_THRESH (default_config angle consec) = (22 # 100)%Q
       /\ MAR_THRESH (default_config angle consec) = (6 # 10)%Q
       /\ [ drowsy_condition (default_config angle consec) m;
            yawning_condition (default_config angle consec) m ]
          = zip_with holds stated_rules [ear m; mar m]
       /\ (drowsy_condition (default_config angle consec) m = true
           <-> (ear m < 22 # 100)%Q)
       /\ (yawning_condition (default_config angle consec) m = true
           <-> (6 # 10 < mar m)%Q).
Proof.
  split; [reflexivity|]. split; [reflexivity|].
  intros angle consec m.
  split; [reflexivity|]. split; [reflexivity|]. split; [reflexivity|].
  split; apply Qltb_lt.
Qed.

End Documentation.

(** * Properties of the frame pipeline *)

Section Classifier.

Import Pipeline.

Variable cfg : Config.

Lemma reached_spec (n : nat) : reached cfg n = true <-> CONSEC_FRAMES cfg <= n.
Proof. unfold reached. apply Nat.leb_le. Qed.

Lemma reached_false (n : nat) : reached cfg n = false <-> n < CONSEC_FRAMES cfg.
Proof. unfold reached. apply Nat.leb_gt. Qed.

Lemma reached_zero : 0 < CONSEC_FRAMES cfg -> reached cfg 0 = false.
Proof. intros Hpos. by apply reached_false. Qed.

Lemma classify_state (now : nat) (cs : ClassificationState) (obs : Observation) :
  state (classify cfg now cs obs)
  = report cfg (state cs) (counters (classify cfg now cs obs)).
Proof. reflexivity. Qed.

Lemma classify_counters (now : nat) (cs : ClassificationState) (obs : Observation) :
  counters (classify cfg now cs obs)
  = update_counters cfg (state cs) (counters cs) obs.
Proof. reflexivity. Qed.

Lemma move_held (cond : State) (q : bool) (c : nat) :
  move cfg cond cond q c = hold cfg q c.
Proof. unfold move. by rewrite decide_True. Qed.

Lemma move_other (held cond : State) (q : bool) (c : nat) :
  held <> cond -> move cfg held cond q c = bump q c.
Proof. intros Hne. unfold move. by rewrite decide_False. Qed.

Lemma in_force_other (held cond : State) (c : Counters) :
  held <> cond -> in_force cfg held c cond = reached cfg (counter_of cond c).
Proof.
  intros Hne. unfold in_force. rewrite bool_decide_eq_false_2 by done.
  by rewrite orb_false_r.
Qed.

Lemma in_force_held (cond : State) (c : Counters) :
  0 < CONSEC_FRAMES cfg ->
  in_force cfg cond c cond = (0 <? counter_of cond c).
Proof.
  intros Hpos. unfold in_force. rewrite bool_decide_eq_true_2 by done.
  cbn [andb]. destruct (reached cfg (counter_of cond c)) eqn:Hr; [|done].
  apply reached_spec in Hr. symmetry. apply Nat.ltb_lt. lia.
Qed.

Lemma trace_length (stream : list (nat * Observation)) (cs : ClassificationState) :
  length (trace cfg cs stream) = length stream.
Proof.
  revert cs. induction stream as [|[now obs] rest IH]; intros cs; cbn; [done|].
  by rewrite IH.
Qed.

Lemma trace_app (a b : list (nat * Observation)) (cs : ClassificationState) :
  trace cfg cs (a ++ b) = trace cfg cs a ++ trace cfg (final cfg cs a) b.
Proof.
  revert cs. induction a as [|[now obs] a IH]; intros cs; cbn; [done|].
  by rewrite IH.
Qed.

Lemma final_cons (now : nat) (obs : Observation) (rest : list (nat * Observation))
    (cs : ClassificationState) :
  final cfg cs ((now, obs) :: rest) = final cfg (classify cfg now cs obs) rest.
Proof. reflexivity. Qed.

(** A frame with a face, taken in state Attentive, on which neither the
    yawning nor the distracted condition qualifies and which leaves the
    Drowsy counter below [CONSEC_FRAMES]: the state stays Attentive. *)
Lemma attentive_step (now : nat) (cs : ClassificationState) (m : Metrics) :
  0 < CONSEC_FRAMES cfg ->
  state cs = Attentive ->
  yawning_condition cfg m = false ->
  distracted_condition cfg m = false ->
  bump (drowsy_condition cfg m) (drowsy_count (counters cs)) < CONSEC_FRAMES cfg ->
  state (classify cfg now cs (Present m)) = Attentive
  /\ drowsy_count (counters (classify cfg now cs (Present m)))
     = bump (drowsy_condition cfg m) (drowsy_count (counters cs)).
Proof.
  intros Hpos Hst Hy Hx Hd. rewrite classify_state, classify_counters, Hst.
  unfold update_counters. rewrite !move_other by done. rewrite Hy, Hx.
  cbn [bump]. split; [|reflexivity].
  unfold report. rewrite !in_force_other by done. cbn [counter_of noface_count
    drowsy_count yawning_count distracted_count].
  rewrite (reached_zero Hpos). by rewrite (proj2 (reached_false _) Hd).
Qed.

Lemma quiet_run (stream : list (nat * Observation)) (cs : ClassificationState) :
  0 < CONSEC_FRAMES cfg ->
  state cs = Attentive ->
  forallb (quiet cfg) stream = true ->
  Forall (fun cs' => state cs' = Attentive) (trace cfg cs stream)
  /\ state (final cfg cs stream) = Attentive
  /\ (drowsy_count (counters cs) = 0 ->
      drowsy_count (counters (final cfg cs stream)) = 0).
Proof.
  intros Hpos. revert cs. induction stream as [|[now obs] rest IH];
    intros cs Hst Hall; [done|].
  cbn in Hall. apply andb_prop in Hall as [Hhd Htl].
  destruct obs as [|m]; [discriminate|]. unfold quiet in Hhd. cbn in Hhd.
  apply andb_prop in Hhd as [Hhd Hx]. apply andb_prop in Hhd as [Hd Hy].
  apply negb_true_iff in Hd, Hy, Hx.
  destruct (attentive_step now cs m Hpos Hst Hy Hx) as [Hst' Hd'].
  { rewrite Hd. cbn. lia. }
  rewrite Hd in Hd'. cbn [bump negb] in Hd'.
  destruct (IH _ Hst' Htl) as (Hall' & Hfin & Hzero).
  cbn [trace]. rewrite final_cons. split; [by apply Forall_cons|].
  split; [done|]. intros _. by apply Hzero.
Qed.

Lemma low_run (stream : list (nat * Observation)) (cs : ClassificationState) :
  0 < CONSEC_FRAMES cfg ->
  state cs = Attentive ->
  forallb (drowsy_only cfg) stream = true ->
  drowsy_count (counters cs) + length stream < CONSEC_FRAMES cfg ->
  Forall (fun cs' => state cs' = Attentive) (trace cfg cs stream)
  /\ state (final cfg cs stream) = Attentive.
Proof.
  intros Hpos. revert cs. induction stream as [|[now obs] rest IH];
    intros cs Hst Hall Hlen; [done|].
  cbn in Hall. apply andb_prop in Hall as [Hhd Htl].
  destruct obs as [|m]; [discriminate|]. unfold drowsy_only in Hhd. cbn in Hhd.
  apply andb_prop in Hhd as [Hhd Hx]. apply andb_prop in Hhd as [Hd Hy].
  apply negb_true_iff in Hy, Hx. cbn [length] in Hlen.
  destruct (attentive_step now cs m Hpos Hst Hy Hx) as [Hst' Hd'].
  { rewrite Hd. cbn. lia. }
  rewrite Hd in Hd'. cbn [bump negb] in Hd'.
  destruct (IH _ Hst' Htl) as (Hall' & Hfin).
  { rewrite Hd'. lia. }
  cbn [trace]. rewrite final_cons. split; [by apply Forall_cons|done].
Qed.

Lemma report_cases (held : State) (c : Counters) :
  in_force cfg held c NoFace = false ->
  (in_force cfg held c Drowsy = true -> report cfg held c = Drowsy)
  /\ (in_force cfg held c Drowsy = false ->
      report cfg held c <> Drowsy /\ report cfg held c <> NoFace).
Proof.
  intros Hn. unfold report. rewrite Hn. split.
  - by intros ->.
  - intros ->. by repeat case_match.
Qed.

Lemma closed_step (n now : nat) (cs : ClassificationState) (m : Metrics) :
  0 < CONSEC_FRAMES cfg ->
  closed_progress cfg n cs ->
  drowsy_condition cfg m = true ->
  closed_progress cfg (S n) (classify cfg now cs (Present m)).
Proof.
  intros Hpos (Hnf & Hlow & Hhigh) Hd.
  assert (Hno : in_force cfg (state cs) (counters (classify cfg now cs (Present m))) NoFace
                = false).
  { rewrite in_force_other by done. rewrite classify_counters.
    cbn [counter_of update_counters noface_count].
    rewrite move_other by done. cbn [bump]. by apply reached_zero. }
  destruct (report_cases _ _ Hno) as [Hin Hout].
  destruct (decide (n < CONSEC_FRAMES cfg)) as [Hlt|Hge].
  - destruct (Hlow Hlt) as [Hcount Hnd].
    assert (Hc : drowsy_count (counters (classify cfg now cs (Present m))) = S n).
    { rewrite classify_counters. cbn [update_counters drowsy_count].
      rewrite move_other by done. by rewrite Hd, Hcount. }
    assert (Hf : in_force cfg (state cs) (counters (classify cfg now cs (Present m))) Drowsy
                 = reached cfg (S n)).
    { rewrite in_force_other by done. cbn [counter_of]. by rewrite Hc. }
    unfold closed_progress. rewrite classify_state.
    destruct (reached cfg (S n)) eqn:Hr.
    + apply reached_spec in Hr. rewrite (Hin Hf). rewrite Hc.
      repeat split; try done; lia.
    + apply reached_false in Hr. destruct (Hout Hf) as [H1 H2].
      rewrite Hc. repeat split; try done; lia.
  - destruct (Hhigh ltac:(lia)) as [Hcount Hst].
    assert (Hc : CONSEC_FRAMES cfg
                 <= drowsy_count (counters (classify cfg now cs (Present m)))).
    { rewrite classify_counters. cbn [update_counters drowsy_count].
      rewrite Hst, move_held, Hd. cbn [hold]. lia. }
    assert (Hf : in_force cfg (state cs) (counters (classify cfg now cs (Present m))) Drowsy
                 = true).
    { unfold in_force. cbn [counter_of]. by rewrite (proj2 (reached_spec _) Hc). }
    unfold closed_progress. rewrite classify_state. rewrite (Hin Hf).
    repeat split; try done; lia.
Qed.

Lemma closed_run (stream : list (nat * Observation)) (cs cs' : ClassificationState)
    (n k : nat) :
  0 < CONSEC_FRAMES cfg ->
  closed_progress cfg n cs ->
  forallb (eyes_closed cfg) stream = true ->
  trace cfg cs stream !! k = Some cs' ->
  closed_progress cfg (n + S k) cs'.
Proof.
  intros Hpos. revert cs n k. induction stream as [|[now obs] rest IH];
    intros cs n k Hp Hall Hk; [done|].
  cbn in Hall. apply andb_prop in Hall as [Hhd Htl].
  destruct obs as [|m]; [discriminate|]. unfold eyes_closed in Hhd. cbn in Hhd.
  pose proof (closed_step n now cs m Hpos Hp Hhd) as Hp'.
  destruct k as [|k]; cbn in Hk.
  - inversion Hk; subst. by rewrite Nat.add_1_r.
  - replace (n + S (S k)) with (S n + S k) by lia. by eapply IH.
Qed.

End Classifier.

Section Debounce.

Import Pipeline.

(** C2. Take a session at rest: state Attentive, Drowsy counter at zero.
    If the eye ratio is below [EAR_THRESH] on exactly [CONSEC_FRAMES - 1]
    consecutive frames, with quiet frames around them and no other
    condition qualifying, the state is Attentive on every frame of the
    stream. If it is below [EAR_THRESH] on a run of consecutive frames
    with a face, the state is Drowsy on the k-th frame of the run exactly
    when [CONSEC_FRAMES <= k]: from the [CONSEC_FRAMES]-th frame on and on
    no earlier one. *)
Theorem drowsy_debounce (cfg : Config) (cs0 : ClassificationState)
    (pre low post closed : list (nat * Observation)) :
  0 < CONSEC_FRAMES cfg ->
  state cs0 = Attentive ->
  drowsy_count (counters cs0) = 0 ->
  forallb (quiet cfg) pre = true ->
  forallb (drowsy_only cfg) low = true ->
  length low = CONSEC_FRAMES cfg - 1 ->
  forallb (quiet cfg) post = true ->
  forallb (eyes_closed cfg) closed = true ->
  Forall (fun cs => state cs = Attentive) (trace cfg cs0 (pre ++ low ++ post))
  /\ length (trace cfg cs0 closed) = length closed
  /\ forall (k : nat) (cs : ClassificationState),
       trace cfg cs0 closed !! k = Some cs ->
       (state cs = Drowsy <-> CONSEC_FRAMES cfg <= S k).
Proof.
  intros Hpos Hrest Hzero Hpre Hlow Hlen Hpost Hclosed.
  split; [|split; [apply trace_length|]].
  - destruct (quiet_run cfg pre cs0 Hpos Hrest Hpre) as (Hall1 & Hst1 & Hd1).
    destruct (low_run cfg low (final cfg cs0 pre) Hpos Hst1 Hlow) as (Hall2 & Hst2).
    { rewrite (Hd1 Hzero). lia. }
    destruct (quiet_run cfg post _ Hpos Hst2 Hpost) as (Hall3 & _).
    rewrite !trace_app, !Forall_app. done.
  - intros k cs Hk.
    assert (H0 : closed_progress cfg 0 cs0).
    { unfold closed_progress. rewrite Hrest. repeat split; try done; lia. }
    destruct (closed_run cfg closed cs0 cs 0 k Hpos H0 Hclosed Hk) as (_ & Hlt & Hge).
    cbn [Nat.add] in Hlt, Hge.
    destruct (decide (CONSEC_FRAMES cfg <= S k)) as [Hle|Hgt].
    + by destruct (Hge Hle).
    + destruct (Hlt ltac:(lia)) as [_ Hnd]. split; [done|lia].
Qed.

Lemma drowsy_debounce_witness :
  Forall (fun cs => state cs = Attentive)
    (trace example_config initial_classification
       (map quiet_frame (seq 0 3) ++ map closed_frame (seq 3 14)
        ++ map quiet_frame (seq 17 2)))
  /\ length (trace example_config initial_classification (map closed_frame (seq 0 16)))
     = length (map closed_frame (seq 0 16))
  /\ forall (k : nat) (cs : ClassificationState),
       trace example_config initial_classification (map closed_frame (seq 0 16)) !! k
       = Some cs ->
       (state cs = Drowsy <-> CONSEC_FRAMES example_config <= S k).
Proof.
  apply (drowsy_debounce example_config initial_classification
           (map quiet_frame (seq 0 3)) (map closed_frame (seq 3 14))
           (map quiet_frame (seq 17 2)) (map closed_frame (seq 0 16)));
    first [reflexivity | cbn; lia].
Defined.

End Debounce.

Section ExitHysteresis.

Import Pipeline.

Lemma quiet_exit_step (cfg : Config) (n now : nat) (cs : ClassificationState)
    (m : Metrics) :
  0 < CONSEC_FRAMES cfg ->
  exit_progress cfg n cs ->
  quiet cfg (now, Present m) = true ->
  exit_progress cfg (S n) (classify cfg now cs (Present m)).
Proof.
  intros Hpos [Hlow Hhigh] Hq. unfold quiet in Hq. cbn in Hq.
  apply andb_prop in Hq as [Hq Hx]. apply andb_prop in Hq as [Hd Hy].
  apply negb_true_iff in Hd, Hy, Hx.
  destruct (decide (n < CONSEC_FRAMES cfg)) as [Hlt|Hge].
  - destruct (Hlow Hlt) as [Hst Hmin].
    unfold exit_progress. rewrite classify_state, classify_counters, Hst.
    unfold update_counters. rewrite move_held, !move_other by done.
    rewrite Hd, Hy, Hx. cbn [bump hold drowsy_count].
    unfold report.
    rewrite (in_force_other cfg Drowsy NoFace), (in_force_other cfg Drowsy Yawning),
      (in_force_other cfg Drowsy Distracted) by done.
    rewrite in_force_held by done.
    cbn [counter_of noface_count drowsy_count yawning_count distracted_count].
    rewrite (reached_zero cfg Hpos), Hmin.
    destruct (0 <? CONSEC_FRAMES cfg - n - 1) eqn:Hpositive.
    + apply Nat.ltb_lt in Hpositive. cbn. split; [|intros; lia].
      intros _. split; [done|lia].
    + apply Nat.ltb_ge in Hpositive. cbn. split; [intros; lia|done].
  - assert (Hst : state cs = Attentive) by (apply Hhigh; lia).
    destruct (attentive_step cfg now cs m Hpos Hst Hy Hx) as [Hst' _].
    { rewrite Hd. cbn. lia. }
    unfold exit_progress. split; [lia|done].
Qed.

(** Exit hysteresis (spec 4.4 step 5 and the exit property of section 8):
    once in Drowsy with the counter reached, [CONSEC_FRAMES - 1]
    consecutive quiet frames leave the state Drowsy, and the
    [CONSEC_FRAMES]-th returns it to Attentive. *)
Lemma drowsy_exit_hysteresis (cfg : Config) (stream : list (nat * Observation))
    (cs cs' : ClassificationState) (k : nat) :
  0 < CONSEC_FRAMES cfg ->
  state cs = Drowsy ->
  CONSEC_FRAMES cfg <= drowsy_count (counters cs) ->
  forallb (quiet cfg) stream = true ->
  trace cfg cs stream !! k = Some cs' ->
  (state cs' = Drowsy <-> S k < CONSEC_FRAMES cfg)
  /\ (CONSEC_FRAMES cfg <= S k -> state cs' = Attentive).
Proof.
  intros Hpos Hst Hc Hall Hk.
  assert (H0 : exit_progress cfg 0 cs).
  { split; [|lia]. intros _. split; [done|lia]. }
  assert (Hgen : forall stream cs n k cs',
             exit_progress cfg n cs -> forallb (quiet cfg) stream = true ->
             trace cfg cs stream !! k = Some cs' -> exit_progress cfg (n + S k) cs').
  { clear - Hpos. intros stream. induction stream as [|[now obs] rest IH];
      intros cs n k cs' Hp Hall Hk; [done|].
    cbn in Hall. apply andb_prop in Hall as [Hhd Htl].
    destruct obs as [|m]; [discriminate|].
    pose proof (quiet_exit_step cfg n now cs m Hpos Hp Hhd) as Hp'.
    destruct k as [|k]; cbn in Hk.
    - inversion Hk; subst. by rewrite Nat.add_1_r.
    - replace (n + S (S k)) with (S n + S k) by lia. by eapply IH. }
  destruct (Hgen stream cs 0 k cs' H0 Hall Hk) as [Hlow Hhigh]. cbn [Nat.add] in *.
  destruct (decide (S k < CONSEC_FRAMES cfg)) as [Hlt|Hge].
  - destruct (Hlow Hlt) as [-> _]. split; [done|lia].
  - rewrite (Hhigh ltac:(lia)). split; [|done]. split; [done|lia].
Qed.

End ExitHysteresis.

Section Priority.

Import Pipeline.










End Priority.


Section Ingestion.

Import Pipeline.

Context {Raster LandmarkSet : Type}.
Variable decode : string -> option Raster.
Variable detect : Raster -> option LandmarkSet.
Variable compute_metrics : LandmarkSet -> nat -> option Metrics.

Lemma ingest_malformed (inb : Inbound) :
  malformed decode (in_frame inb) -> ingest decode inb = Fail DecodeError.
Proof.
  intros [Hempty|Hnone]; unfold ingest.
  - by rewrite decide_True.
  - case_decide; [done|]. by rewrite Hnone.
Qed.

(** Ingestion fails only with [DecodeError], and only on such payloads. *)
Lemma ingest_fail_inv (inb : Inbound) (e : Error) :
  ingest decode inb = Fail e -> e = DecodeError /\ malformed decode (in_frame inb).
Proof.
  unfold ingest, malformed. case_decide as Hempty.
  - intros [= <-]. auto.
  - destruct (decode (in_frame inb)) eqn:Hdec; [discriminate|].
    intros [= <-]. auto.
Qed.

Lemma process_all_app (s : Session) (a b : list Inbound) :
  process_all decode detect compute_metrics s (a ++ b)
  = let '(s1, out1) := process_all decode detect compute_metrics s a in
    let '(s2, out2) := process_all decode detect compute_metrics s1 b in
    (s2, out1 ++ out2).
Proof.
  revert s. induction a as [|inb a IH]; intros s; cbn.
  - by destruct (process_all decode detect compute_metrics s b).
  - destruct (process decode detect compute_metrics s inb) as [s1 out1].
    rewrite IH.
    destruct (process_all decode detect compute_metrics s1 a) as [s2 out2].
    destruct (process_all decode detect compute_metrics s2 b) as [s3 out3].
    by rewrite app_assoc.
Qed.

(** C7. A payload that is empty or does not decode makes ingestion fail
    with [DecodeError]; the frame is dropped: the session, with its state
    and counters, is returned as it was and nothing is emitted, so no error
    reaches the user; and the pipeline goes on: a stream containing the bad
    frame ends in the same session with the same results as the stream
    without it. *)
Theorem decode_error_drops_frame (s : Session) (inb : Inbound)
    (before after : list Inbound) :
  malformed decode (in_frame inb) ->
  ingest decode inb = Fail DecodeError
  /\ process decode detect compute_metrics s inb = (s, [])
  /\ process_all decode detect compute_metrics s (before ++ inb :: after)
     = process_all decode detect compute_metrics s (before ++ after).
Proof.
  intros Hbad. pose proof (ingest_malformed inb Hbad) as Hfail.
  assert (Hdrop : forall s0, process decode detect compute_metrics s0 inb = (s0, [])).
  { intros s0. unfold process. by rewrite Hfail. }
  split; [exact Hfail|]. split; [apply Hdrop|].
  rewrite !process_all_app.
  destruct (process_all decode detect compute_metrics s before) as [s1 out1].
  cbn [process_all]. rewrite Hdrop.
  by destruct (process_all decode detect compute_metrics s1 after).
Qed.

End Ingestion.

Section IngestionExample.

Import Pipeline.

Lemma decode_error_drops_frame_witness :
  ingest example_decode (broken_inbound 1) = Fail DecodeError
  /\ process example_decode example_detect example_metrics example_session
       (broken_inbound 1) = (example_session, [])
  /\ process_all example_decode example_detect example_metrics example_session
       ([jpeg_inbound 0] ++ broken_inbound 1 :: [jpeg_inbound 2])
     = process_all example_decode example_detect example_metrics example_session
         ([jpeg_inbound 0] ++ [jpeg_inbound 2]).
Proof.
  apply (decode_error_drops_frame example_decode example_detect example_metrics
           example_session (broken_inbound 1) [jpeg_inbound 0] [jpeg_inbound 2]).
  right. reflexivity.
Defined.

End IngestionExample.

(** * Further properties of the dashboard client *)

Section ChartHistory.

Import App View.

Lemma slice_last_absorb {A} (n : nat) (a b : list A) :
  slice_last n (slice_last n a ++ b) = slice_last n (a ++ b).
Proof.
  destruct (decide (length a <= n)) as [Hle|Hgt].
  - by rewrite (slice_last_short n a Hle).
  - unfold slice_last. rewrite !length_app, length_drop.
    replace (length a - (length a - n) + length b - n) with (length b) by lia.
    replace (length a + length b - n) with ((length a - n) + length b) by lia.
    rewrite <- drop_drop. f_equal.
    rewrite drop_app_le by lia. reflexivity.
Qed.

Lemma step_point (s s' : AppState) (ev : Event) :
  step s ev = Some s' ->
  chartData s' = match point_of ev with
                 | Some p => push_point (chartData s) p
                 | None => chartData s
                 end.
Proof.
  intros Hstep. destruct ev; simpl in Hstep; cbn [point_of].
  - by inversion Hstep; subst.
  - by inversion Hstep; subst.
  - unfold on_status_update in Hstep.
    repeat case_match; try discriminate. by inversion Hstep; subst.
  - destruct (timers s !! id); [|discriminate]. inversion Hstep; subst.
    unfold captureFrame. repeat case_match; done.
  - destruct (isConnected s); [|discriminate]. inversion Hstep; subst.
    unfold toggleStreaming, clear_capture_interval.
    by destruct (isStreaming s), (interval_set (captureIntervalRef s)).
  - destruct (isLoggedIn s); [|discriminate]. inversion Hstep; subst.
    unfold handleLogout, clear_capture_interval.
    by destruct (interval_set (captureIntervalRef (setIsLoggedIn false s))).
  - by inversion Hstep; subst.
Qed.

Lemma points_of_cons (ev : Event) (evs : list Event) :
  points_of (ev :: evs)
  = match point_of ev with
    | Some p => p :: points_of evs
    | None => points_of evs
    end.
Proof. reflexivity. Qed.

Lemma run_points (evs : list Event) (s s' : AppState) :
  run s evs = Some s' ->
  length (chartData s) <= MAX_CHART_POINTS ->
  chartData s' = slice_last MAX_CHART_POINTS (chartData s ++ points_of evs).
Proof.
  revert s. induction evs as [|ev evs IH]; intros s Hrun Hlen; simpl in Hrun.
  - inversion Hrun; subst. unfold points_of. cbn. rewrite app_nil_r.
    by rewrite slice_last_short.
  - destruct (step s ev) as [s1|] eqn:Hstep; [|discriminate].
    pose proof (step_point _ _ _ Hstep) as Hc.
    rewrite (IH s1 Hrun) by (eapply step_chart_bound; eauto).
    rewrite Hc, points_of_cons.
    destruct (point_of ev) as [p|]; [|reflexivity].
    unfold push_point. rewrite slice_last_absorb. by rewrite <- app_assoc.
Qed.

(** X1. Over any run of the component from its first render, the chart
    holds the points of all [status_update] events received so far, in
    arrival order, cut to the last 30; pausing, logging out, reconnecting
    and capture ticks neither add nor drop points. *)
Theorem chart_holds_latest_points (evs : list Event) (s : AppState) :
  run initial evs = Some s ->
  chartData s = drop (length (points_of evs) - 30) (points_of evs).
Proof.
  intros Hrun. rewrite (run_points evs initial s Hrun) by (cbn; lia).
  reflexivity.
Qed.

End ChartHistory.

Section ChartHistoryExample.

Import App View Samples.

Lemma chart_holds_latest_points_witness :
  chartData session_state
  = drop (length (points_of session_events) - 30) (points_of session_events).
Proof.
  apply (chart_holds_latest_points session_events session_state).
  vm_compute. reflexivity.
Defined.

End ChartHistoryExample.

Section EmittedEvents.

Import App Capture View Samples.

Lemma run_sent (evs : list Event) (s s' : AppState) :
  run s evs = Some s' ->
  exists added,
    sent s' = sent s ++ added /\ Forall frame_event added /\
    length added <= length (List.filter is_tick evs).
Proof.
  revert s. induction evs as [|ev evs IH]; intros s Hrun; simpl in Hrun.
  - inversion Hrun; subst. exists []. rewrite app_nil_r. by repeat split.
  - destruct (step s ev) as [s1|] eqn:Hstep; [|discriminate].
    destruct (IH s1 Hrun) as (added & Hsent & Hall & Hlen).
    destruct (step_sent _ _ _ Hstep) as [Hsame|(id & img & -> & Hne & _ & _ & Hone)].
    + exists added. rewrite Hsent, Hsame. repeat split; [done|].
      cbn [List.filter]. destruct (is_tick ev); cbn [length]; lia.
    + exists (("video_frame", {[ "frame" := img ]}) :: added).
      rewrite Hsent, Hone, <- app_assoc. repeat split.
      * apply Forall_cons. split; [|done]. split; [done|]. by exists img.
      * cbn. lia.
Qed.

(** X2. Whatever happens to the component, all it ever hands to
    [socket.emit] are [video_frame] events with the single field [frame]
    holding a non-empty screenshot; what was emitted is never altered,
    only extended, and by at most one event per timer tick. *)
Theorem emits_only_video_frames (evs more : list Event) (s s' : AppState) :
  run initial evs = Some s ->
  run s more = Some s' ->
  Forall frame_event (sent s')
  /\ sent s `prefix_of` sent s'
  /\ length (sent s') <= length (sent s) + length (List.filter is_tick more).
Proof.
  intros Hrun Hmore.
  destruct (run_sent _ _ _ Hrun) as (a1 & H1 & Hall1 & _).
  destruct (run_sent _ _ _ Hmore) as (a2 & H2 & Hall2 & Hlen).
  cbn in H1. split; [|split].
  - rewrite H2, H1. by apply Forall_app.
  - rewrite H2. by apply prefix_app_r.
  - rewrite H2, length_app. lia.
Qed.

Lemma emits_only_video_frames_witness :
  Forall frame_event (sent session_state)
  /\ sent streaming_example `prefix_of` sent session_state
  /\ length (sent session_state)
     <= length (sent streaming_example)
        + length (List.filter is_tick (drop 2 session_events)).
Proof.
  apply (emits_only_video_frames (take 2 session_events) (drop 2 session_events)
           streaming_example session_state); vm_compute; reflexivity.
Defined.

End EmittedEvents.

Section CaptureView.

Import App Capture View Samples.

(** X3. In every state the component reaches, what the page shows matches
    the timers it holds: the "Click Start Monitoring" overlay is up exactly
    when no interval timer is registered, the button reads "Stop
    Monitoring" exactly when one timer of period 200 ms is registered under
    the id the ref holds; there are never two timers, and the id the next
    [setInterval] returns is not in use, so starting never orphans a
    running timer. *)
Theorem view_matches_timers (evs : list Event) (s : AppState) :
  run initial evs = Some s ->
  (overlay_shown s = true <-> timers s = ∅)
  /\ (stream_button_label s = "⏸️ Stop Monitoring"
      <-> exists id, captureIntervalRef s = Some id /\ timers s = {[ id := 200 ]})
  /\ size (timers s) <= 1
  /\ timers s !! next_timer s = None.
Proof.
  intros Hrun.
  pose proof (run_capture_inv _ _ _ initial_capture_inv Hrun) as [Hpos Hinv].
  unfold overlay_shown, stream_button_label.
  destruct (isStreaming s).
  - destruct Hinv as (id & Hid & Href & Htim). rewrite Htim.
    split; [|split; [|split]].
    + split; [done|]. intros Hempty.
      apply (f_equal (fun m => m !! id)) in Hempty.
      by rewrite lookup_singleton_eq, lookup_empty in Hempty.
    + split; [|done]. intros _. by exists id.
    + rewrite map_size_singleton. lia.
    + apply lookup_singleton_ne. lia.
  - destruct Hinv as [Href Htim]. rewrite Htim.
    split; [|split; [|split]].
    + done.
    + split; [done|]. intros (id & _ & Hone).
      apply (f_equal (fun m => m !! id)) in Hone.
      by rewrite lookup_singleton_eq, lookup_empty in Hone.
    + rewrite map_size_empty. lia.
    + apply lookup_empty.
Qed.

Lemma view_matches_timers_witness :
  (overlay_shown session_state = true <-> timers session_state = ∅)
  /\ (stream_button_label session_state = "⏸️ Stop Monitoring"
      <-> exists id, captureIntervalRef session_state = Some id
                     /\ timers session_state = {[ id := 200 ]})
  /\ size (timers session_state) <= 1
  /\ timers session_state !! next_timer session_state = None.
Proof.
  apply (view_matches_timers session_events session_state).
  vm_compute. reflexivity.
Defined.

(** X4. A lost connection does not stop the capture. While the socket is
    down the timer keeps firing without emitting anything, and the
    monitoring button cannot be clicked; once the socket is back, the next
    tick with a screenshot emits a frame again, with no action of the
    user. *)
Theorem capture_survives_reconnect (evs : list Event) (s : AppState) :
  run initial evs = Some s ->
  isStreaming s = true ->
  exists id,
    captureIntervalRef s = Some id /\
    (forall webcam,
       exists s1, run s [SocketDisconnect; Tick id webcam] = Some s1
                  /\ sent s1 = sent s
                  /\ isStreaming s1 = true
                  /\ stream_button_disabled s1 = true
                  /\ step s1 ClickToggle = None) /\
    (forall imageSrc, imageSrc <> "" ->
       exists s2,
         run s [SocketDisconnect; SocketConnect; Tick id (Some (Some imageSrc))] = Some s2
         /\ sent s2 = sent s ++ [("video_frame", {[ "frame" := imageSrc ]})]).
Proof.
  intros Hrun Hon.
  pose proof (run_capture_inv _ _ _ initial_capture_inv Hrun) as [_ Hinv].
  rewrite Hon in Hinv. destruct Hinv as (id & _ & Href & Htim).
  exists id. split; [exact Href|]. split.
  - intros webcam. exists (captureFrame webcam (on_connection false s)).
    cbn [run step]. cbn [timers on_connection setIsConnected set_socket].
    rewrite Htim, lookup_singleton_eq. split; [reflexivity|].
    unfold captureFrame. cbn [socketRef on_connection setIsConnected set_socket].
    destruct webcam; cbn; rewrite ?Hon; done.
  - intros img Hne.
    exists (captureFrame (Some (Some img)) (on_connection true (on_connection false s))).
    cbn [run step]. cbn [timers on_connection setIsConnected set_socket].
    rewrite Htim, lookup_singleton_eq. split; [reflexivity|].
    unfold captureFrame. cbn [socketRef on_connection setIsConnected set_socket].
    case_decide; done.
Qed.

Lemma capture_survives_reconnect_witness :
  exists id,
    captureIntervalRef streaming_example = Some id /\
    (forall webcam,
       exists s1, run streaming_example [SocketDisconnect; Tick id webcam] = Some s1
                  /\ sent s1 = sent streaming_example
                  /\ isStreaming s1 = true
                  /\ stream_button_disabled s1 = true
                  /\ step s1 ClickToggle = None) /\
    (forall imageSrc, imageSrc <> "" ->
       exists s2,
         run streaming_example
           [SocketDisconnect; SocketConnect; Tick id (Some (Some imageSrc))] = Some s2
         /\ sent s2 = sent streaming_example ++ [("video_frame", {[ "frame" := imageSrc ]})]).
Proof.
  apply (capture_survives_reconnect [SocketConnect; ClickToggle] streaming_example);
    vm_compute; reflexivity.
Defined.

(** X5. Unmounting releases what the component holds: in every reachable
    state the cleanup leaves no interval timer registered and no connected
    socket, so no capture tick can fire afterwards; it emits nothing, and
    it leaves the value of [captureIntervalRef] as it was. *)
Theorem cleanup_releases_timer_and_socket (evs : list Event) (s : AppState) :
  run initial evs = Some s ->
  timers (cleanup s) = ∅
  /\ socketRef (cleanup s) <> Some true
  /\ (forall id webcam, step (cleanup s) (Tick id webcam) = None)
  /\ sent (cleanup s) = sent s
  /\ captureIntervalRef (cleanup s) = captureIntervalRef s.
Proof.
  intros Hrun.
  pose proof (run_capture_inv _ _ _ initial_capture_inv Hrun) as [_ Hinv].
  assert (Htim : timers (cleanup s) = ∅).
  { unfold cleanup. destruct (isStreaming s).
    - destruct Hinv as (id & Hid & Href & Htim).
      destruct (socketRef s); cbn; rewrite Href; cbn;
        (case_decide; [lia|]); cbn; rewrite Htim; apply delete_singleton_eq.
    - destruct Hinv as [Href Htim].
      destruct (socketRef s); cbn; by rewrite Href. }
  split; [exact Htim|]. split; [|split; [|split]].
  - unfold cleanup.
    destruct (socketRef s) as [c|] eqn:Hsock; cbn;
      destruct (interval_set (captureIntervalRef s)); cbn; rewrite ?Hsock; done.
  - intros id webcam. cbn [step]. by rewrite Htim, lookup_empty.
  - unfold cleanup.
    by destruct (socketRef s); cbn; destruct (interval_set (captureIntervalRef s)).
  - unfold cleanup.
    by destruct (socketRef s); cbn; destruct (interval_set (captureIntervalRef s)).
Qed.

Lemma cleanup_releases_timer_and_socket_witness :
  timers (cleanup streaming_example) = ∅
  /\ socketRef (cleanup streaming_example) <> Some true
  /\ (forall id webcam, step (cleanup streaming_example) (Tick id webcam) = None)
  /\ sent (cleanup streaming_example) = sent streaming_example
  /\ captureIntervalRef (cleanup streaming_example) = captureIntervalRef streaming_example.
Proof.
  apply (cleanup_releases_timer_and_socket [SocketConnect; ClickToggle] streaming_example).
  vm_compute. reflexivity.
Defined.

End CaptureView.

Section PauseAndResults.

Import App Capture View Samples.

(** X6. Stopping the monitoring sets the status to Paused and keeps the
    chart, both scores and everything emitted so far; a result that arrives
    after the stop is displayed all the same: it replaces Paused by its own
    status and adds its point to the chart, while the capture stays
    stopped. *)
Theorem late_result_replaces_paused (s s1 s2 : AppState)
    (data : gmap string JsVal) (now : string) :
  isStreaming s = true ->
  step s ClickToggle = Some s1 ->
  step s1 (StatusUpdate data now) = Some s2 ->
  currentStatus s1 = "Paused"
  /\ chartData s1 = chartData s /\ earScore s1 = earScore s
  /\ marScore s1 = marScore s /\ sent s1 = sent s
  /\ status_of (StatusUpdate data now) = Some (currentStatus s2)
  /\ (exists p, point_of (StatusUpdate data now) = Some p
                /\ chartData s2 = push_point (chartData s) p)
  /\ isStreaming s2 = false /\ timers s2 = timers s1.
Proof.
  intros Hon H1 H2. cbn [step] in H1, H2.
  destruct (isConnected s); [|discriminate]. inversion H1; subst s1. clear H1.
  unfold toggleStreaming in *. rewrite Hon in *.
  destruct (clear_capture_interval_sent s) as [Hsent Hchart].
  assert (Hear : earScore (clear_capture_interval s) = earScore s
                 /\ marScore (clear_capture_interval s) = marScore s).
  { unfold clear_capture_interval.
    by destruct (interval_set (captureIntervalRef s)). }
  destruct Hear as [Hear Hmar].
  split; [reflexivity|]. split; [exact Hchart|]. split; [exact Hear|].
  split; [exact Hmar|]. split; [exact Hsent|].
  unfold on_status_update in H2. cbn [status_of point_of].
  destruct (data !! "status") as [[| |?|status]|]; try discriminate.
  destruct (data !! "ear_score") as [[| |e|?]|]; try discriminate.
  destruct (data !! "mar_score") as [[| |m|?]|]; try discriminate.
  inversion H2; subst s2. clear H2.
  split; [reflexivity|]. split; [|split; reflexivity].
  eexists. split; [reflexivity|].
  rewrite status_update_chartData. cbn [chartData setCurrentStatus setIsStreaming].
  by rewrite Hchart.
Qed.

Lemma late_result_replaces_paused_witness :
  currentStatus (toggleStreaming streaming_example) = "Paused"
  /\ chartData (toggleStreaming streaming_example) = chartData streaming_example
  /\ earScore (toggleStreaming streaming_example) = earScore streaming_example
  /\ marScore (toggleStreaming streaming_example) = marScore streaming_example
  /\ sent (toggleStreaming streaming_example) = sent streaming_example
  /\ status_of (StatusUpdate drowsy_event "10:15:01")
     = Some (currentStatus
               (status_update "Drowsy" (1 # 8) (1 # 8) "10:15:01"
                  (toggleStreaming streaming_example)))
  /\ (exists p, point_of (StatusUpdate drowsy_event "10:15:01") = Some p
                /\ chartData (status_update "Drowsy" (1 # 8) (1 # 8) "10:15:01"
                                (toggleStreaming streaming_example))
                   = push_point (chartData streaming_example) p)
  /\ isStreaming (status_update "Drowsy" (1 # 8) (1 # 8) "10:15:01"
                    (toggleStreaming streaming_example)) = false
  /\ timers (status_update "Drowsy" (1 # 8) (1 # 8) "10:15:01"
               (toggleStreaming streaming_example))
     = timers (toggleStreaming streaming_example).
Proof.
  apply (late_result_replaces_paused streaming_example
           (toggleStreaming streaming_example)
           (status_update "Drowsy" (1 # 8) (1 # 8) "10:15:01"
              (toggleStreaming streaming_example))
           drowsy_event "10:15:01"); vm_compute; reflexivity.
Defined.

(** The badge shows the status the component started with, Paused, or a
    status some received event carried. *)
Lemma run_status (evs : list Event) (s s' : AppState) :
  run s evs = Some s' ->
  currentStatus s' = currentStatus s
  \/ currentStatus s' = "Paused"
  \/ exists ev, ev ∈ evs /\ status_of ev = Some (currentStatus s').
Proof.
  revert s. induction evs as [|ev evs IH]; intros s Hrun; simpl in Hrun.
  - inversion Hrun; subst. by left.
  - destruct (step s ev) as [s1|] eqn:Hstep; [|discriminate].
    destruct (IH s1 Hrun) as [Hsame|[Hp|(ev' & Hin & Hst)]].
    + rewrite Hsame. clear IH Hrun Hsame.
      destruct ev; simpl in Hstep.
      * inversion Hstep; subst. by left.
      * inversion Hstep; subst. by left.
      * right. right. exists (StatusUpdate data now). split; [set_solver|].
        unfold on_status_update in Hstep. cbn [status_of].
        destruct (data !! "status") as [[| |?|status]|]; try discriminate.
        repeat case_match; try discriminate. by inversion Hstep; subst.
      * left. destruct (timers s !! id); [|discriminate]. inversion Hstep; subst.
        destruct (captureFrame_sent webcam s) as [->|(img & _ & _ & _ & ->)]; done.
      * destruct (isConnected s); [|discriminate]. inversion Hstep; subst.
        unfold toggleStreaming. destruct (isStreaming s); [by right; left|by left].
      * left. destruct (isLoggedIn s); [|discriminate]. inversion Hstep; subst.
        unfold handleLogout, clear_capture_interval. cbn.
        by destruct (interval_set (captureIntervalRef s)).
      * inversion Hstep; subst. by left.
    + right. by left.
    + right. right. exists ev'. split; [set_solver|done].
Qed.

End PauseAndResults.

Section StatusBadge.

Import App Capture View Samples.

Lemma status_colors_lookup (status : string) :
  STATUS_COLORS !! status
  = if decide (status = "Attentive") then Some "#00ff88"
    else if decide (status = "Drowsy") then Some "#ff4444"
    else if decide (status = "Yawning") then Some "#ffaa00"
    else if decide (status = "Distracted") then Some "#ff6600"
    else if decide (status = "No Face Detected") then Some "#888888"
    else None.
Proof.
  unfold STATUS_COLORS. cbn [list_to_map foldr uncurry curry fst snd].
  repeat case_decide; subst; try reflexivity.
  by rewrite !lookup_insert_ne, lookup_empty.
Qed.

Lemma known_status_cases (P : string -> Prop) :
  Forall P known_statuses ->
  (forall status, status ∉ known_statuses -> P status) ->
  forall status, P status.
Proof.
  intros Hk Hother status.
  destruct (decide (status ∈ known_statuses)) as [Hin|Hout]; [|by apply Hother].
  by apply (proj1 (Forall_forall _ _) Hk).
Qed.

Lemma unknown_status (status : string) :
  status ∉ known_statuses ->
  status_icon status = [] /\ STATUS_COLORS !! status = None.
Proof.
  intros Hout. unfold known_statuses in Hout.
  rewrite !not_elem_of_cons in Hout.
  destruct Hout as (H1 & H2 & H3 & H4 & H5 & H6 & H7 & _).
  split.
  - unfold status_icon. by rewrite !decide_False.
  - rewrite status_colors_lookup. by rewrite !decide_False.
Qed.

Lemma status_icon_cases (status : string) :
  length (status_icon status) <= 1
  /\ (length (status_icon status) = 1
      <-> is_Some (STATUS_COLORS !! status)
          \/ status = "Waiting..." \/ status = "Paused").
Proof.
  revert status. apply known_status_cases.
  - repeat (apply Forall_cons; split); try apply Forall_nil.
    all: cbv beta.
    all: split.
    all: try (vm_compute; lia).
    all: split; intros _;
      first [ vm_compute; reflexivity
            | left; eexists; vm_compute; reflexivity
            | right; left; reflexivity
            | right; right; reflexivity ].
  - intros status Hout. destruct (unknown_status status Hout) as [Hicon Hcol].
    rewrite Hicon, Hcol. cbn.
    split; [lia|]. split; [done|].
    intros [[? [=]]|[->| ->]]; exfalso; apply Hout; unfold known_statuses;
      rewrite !elem_of_cons; auto 10.
Qed.

Lemma statusColor_cases (status : string) :
  statusColor status
  = if decide (status = "Attentive") then Colour "#00ff88"
    else if decide (status = "Drowsy") then Colour "#ff4444"
    else if decide (status = "Yawning") then Colour "#ffaa00"
    else if decide (status = "Distracted") then Colour "#ff6600"
    else if decide (status = "No Face Detected") then Colour "#888888"
    else if decide (status ∈ Object_prototype_names) then Member status
    else Colour "#888888".
Proof.
  unfold statusColor. rewrite status_colors_lookup.
  repeat case_decide; subst; reflexivity.
Qed.

Lemma own_key_not_inherited (status : string) :
  is_Some (STATUS_COLORS !! status) -> status ∉ Object_prototype_names.
Proof.
  rewrite status_colors_lookup. intros Hsome Hin.
  repeat case_decide; subst;
    first [ by repeat (inversion Hin as [|? ? ? Hin']; clear Hin; rename Hin' into Hin)
          | by destruct Hsome ].
Qed.

(** X7. The badge tables agree. A status has exactly one icon if it is a
    key of [STATUS_COLORS], 'Waiting...' or 'Paused', and none otherwise;
    no status has two icons. The badge colour is the member inherited from
    [Object.prototype] exactly for the names found there, none of which
    has an icon; for every other status it is a colour string that is not
    empty, and the grey #888888 unless the status is Attentive, Drowsy,
    Yawning or Distracted. *)
Theorem badge_icon_and_colour (status : string) :
  length (status_icon status) <= 1
  /\ (length (status_icon status) = 1
      <-> is_Some (STATUS_COLORS !! status)
          \/ status = "Waiting..." \/ status = "Paused")
  /\ (statusColor status = Member status <-> status ∈ Object_prototype_names)
  /\ (status ∈ Object_prototype_names -> status_icon status = [])
  /\ (status ∉ Object_prototype_names ->
      exists c : string,
        statusColor status = Colour c
        /\ c <> ""
        /\ (c = "#888888"
            \/ status ∈ ["Attentive"; "Drowsy"; "Yawning"; "Distracted"])).
Proof.
  destruct (status_icon_cases status) as [Hone Hicon].
  split; [done|]. split; [done|].
  split; [|split].
  - split.
    + rewrite statusColor_cases. intros H. by repeat case_decide.
    + intros Hin. unfold statusColor.
      destruct (STATUS_COLORS !! status) as [c|] eqn:Hc.
      * destruct (own_key_not_inherited status); [by eexists|done].
      * by rewrite decide_True.
  - intros Hin.
    destruct (status_icon status) as [|icon rest] eqn:Hshown; [done|].
    exfalso. destruct rest; [|cbn in Hone; lia].
    destruct (proj1 Hicon eq_refl) as [Hown|[->| ->]].
    + by apply (own_key_not_inherited status).
    + by repeat (inversion Hin as [|? ? ? Hin']; clear Hin; rename Hin' into Hin).
    + by repeat (inversion Hin as [|? ? ? Hin']; clear Hin; rename Hin' into Hin).
  - intros Hout. rewrite statusColor_cases.
    repeat case_decide; subst; try done; eexists;
      (split; [reflexivity|]); (split; [done|]);
      first [ by left | right; rewrite !elem_of_cons; auto 6 ].
Qed.

Lemma badge_icon_and_colour_witness :
  status_icon "toString" = []
  /\ statusColor "toString" = Member "toString"
  /\ exists c : string,
       statusColor "Yawning" = Colour c
       /\ c <> ""
       /\ (c = "#888888"
           \/ "Yawning" ∈ ["Attentive"; "Drowsy"; "Yawning"; "Distracted"]).
Proof.
  assert (Hin : "toString" ∈ Object_prototype_names).
  { unfold Object_prototype_names. rewrite !elem_of_cons. auto 8. }
  assert (Hout : "Yawning" ∉ Object_prototype_names).
  { intros H. by repeat (inversion H as [|? ? ? H']; clear H; rename H' into H). }
  split; [|split].
  - by apply (badge_icon_and_colour "toString").
  - by apply (badge_icon_and_colour "toString").
  - by apply (badge_icon_and_colour "Yawning").
Defined.

(** X8. Over any run from the first render, the badge shows 'Waiting...',
    'Paused', or the status of a [status_update] event that was received:
    the component invents no other status text. *)
Theorem badge_status_origin (evs : list Event) (s : AppState) :
  run initial evs = Some s ->
  currentStatus s = "Waiting..."
  \/ currentStatus s = "Paused"
  \/ exists ev, ev ∈ evs /\ status_of ev = Some (currentStatus s).
Proof. intros Hrun. by apply (run_status evs initial s). Qed.

Lemma badge_status_origin_witness :
  currentStatus session_state = "Waiting..."
  \/ currentStatus session_state = "Paused"
  \/ exists ev, ev ∈ session_events /\ status_of ev = Some (currentStatus session_state).
Proof.
  apply (badge_status_origin session_events session_state).
  vm_compute. reflexivity.
Defined.

End StatusBadge.

Section ScoresOnThePage.

Import App View.
Local Open Scope Q_scope.

Lemma Math_round_le (x y : Q) : x <= y -> (Math_round x <= Math_round y)%Z.
Proof.
  intros Hxy. unfold Math_round. apply Qfloor_resp_le. lra.
Qed.

(** X9. For an eye ratio of at most 0.5 and a mouth ratio that is not
    negative, the integer score the handler puts into the chart lies
    between 0 and 100, the range of the chart's axis, whatever the
    status. *)
Theorem chart_score_within_axis (status : string) (ear_score mar_score : Q) :
  ear_score <= 1 # 2 -> 0 <= mar_score ->
  (0 <= Math_round (attentivenessScore status ear_score mar_score) <= 100)%Z.
Proof.
  intros He Hm.
  destruct (attentiveness_in_range status ear_score mar_score He Hm) as [Hlo Hhi].
  split.
  - change 0%Z with (Math_round 0). by apply Math_round_le.
  - change 100%Z with (Math_round 100). by apply Math_round_le.
Qed.

Lemma chart_score_within_axis_witness :
  (0 <= Math_round (attentivenessScore "Drowsy" (1 # 8) (1 # 8)) <= 100)%Z.
Proof.
  apply (chart_score_within_axis "Drowsy" (1 # 8) (1 # 8)); vm_compute; discriminate.
Defined.

(** X10. The score follows the metrics in the expected direction: under
    status Drowsy it never falls when the eye ratio rises, under status
    Yawning it never rises when the mouth ratio rises; and it has a floor,
    20 for Drowsy and 30 for Yawning, whatever the ratios. *)
Theorem score_follows_metrics (e e' m m' : Q) :
  e <= e' -> m <= m' ->
  attentivenessScore "Drowsy" e m <= attentivenessScore "Drowsy" e' m'
  /\ attentivenessScore "Yawning" e' m' <= attentivenessScore "Yawning" e m
  /\ 20 <= attentivenessScore "Drowsy" e m
  /\ 30 <= attentivenessScore "Yawning" e m.
Proof.
  intros He Hm.
  assert (Hd : forall x y, attentivenessScore "Drowsy" x y = Math_max 20 (x * 200))
    by reflexivity.
  assert (Hy : forall x y, attentivenessScore "Yawning" x y
                           = Math_max 30 (100 - y * 100)) by reflexivity.
  rewrite !Hd, !Hy. unfold Math_max. repeat split.
  - apply Q.max_le_compat_l. lra.
  - apply Q.max_le_compat_l. lra.
  - apply Q.le_max_l.
  - apply Q.le_max_l.
Qed.

Lemma score_follows_metrics_witness :
  attentivenessScore "Drowsy" (1 # 8) (1 # 8) <= attentivenessScore "Drowsy" (1 # 4) (1 # 2)
  /\ attentivenessScore "Yawning" (1 # 4) (1 # 2) <= attentivenessScore "Yawning" (1 # 8) (1 # 8)
  /\ 20 <= attentivenessScore "Drowsy" (1 # 8) (1 # 8)
  /\ 30 <= attentivenessScore "Yawning" (1 # 8) (1 # 8).
Proof.
  apply (score_follows_metrics (1 # 8) (1 # 4) (1 # 8) (1 # 2)); vm_compute; discriminate.
Defined.

(** X11. The two metric bars stay on their track: for a ratio that is not
    negative each width lies between 0 and 100 percent; the eye bar is full
    exactly from a ratio of 0.5 on, the mouth bar exactly from 1 on. *)
Theorem metric_bars_within_track (x : Q) :
  0 <= x ->
  (0 <= ear_bar_width x /\ ear_bar_width x <= 100)
  /\ (0 <= mar_bar_width x /\ mar_bar_width x <= 100)
  /\ (ear_bar_width x == 100 <-> 1 # 2 <= x)
  /\ (mar_bar_width x == 100 <-> 1 <= x).
Proof.
  intros Hx. unfold ear_bar_width, mar_bar_width, Math_min.
  destruct (Q.min_spec (x * 200) 100) as [[He1 He2]|[He1 He2]];
    destruct (Q.min_spec (x * 100) 100) as [[Hm1 Hm2]|[Hm1 Hm2]];
    rewrite He2, Hm2; repeat split; intros; lra.
Qed.

Lemma metric_bars_within_track_witness :
  (0 <= ear_bar_width (3 # 4) /\ ear_bar_width (3 # 4) <= 100)
  /\ (0 <= mar_bar_width (3 # 4) /\ mar_bar_width (3 # 4) <= 100)
  /\ (ear_bar_width (3 # 4) == 100 <-> 1 # 2 <= 3 # 4)
  /\ (mar_bar_width (3 # 4) == 100 <-> 1 <= 3 # 4).
Proof.
  apply (metric_bars_within_track (3 # 4)). vm_compute. discriminate.
Defined.

End ScoresOnThePage.

(** * Properties of login, registration and the stored session *)

Section AuthInvariant.

Import Auth.

Context {User : Type}.
Variable stringify : User -> string.
Variable parse : string -> option (option User).
Variable TypeError_message : string -> string.

Local Abbreviation AState := (@AuthState User).

Lemma app_step_isLoggedIn (a a' : App.AppState) (ev : App.Event) :
  App.step a ev = Some a' -> ev <> App.LoginOk -> ev <> App.ClickLogout ->
  App.isLoggedIn a' = App.isLoggedIn a.
Proof.
  intros Hstep H1 H2. destruct ev; simpl in Hstep; try done.
  - by inversion Hstep; subst.
  - by inversion Hstep; subst.
  - unfold App.on_status_update in Hstep.
    repeat case_match; try discriminate. by inversion Hstep; subst.
  - destruct (App.timers a !! id); [|discriminate]. inversion Hstep; subst.
    unfold App.captureFrame. by repeat case_match.
  - destruct (App.isConnected a); [|discriminate]. inversion Hstep; subst.
    unfold App.toggleStreaming, App.clear_capture_interval.
    by destruct (App.isStreaming a), (App.interval_set (App.captureIntervalRef a)).
Qed.

Lemma clear_capture_interval_isLoggedIn (a : App.AppState) :
  App.isLoggedIn (App.clear_capture_interval a) = App.isLoggedIn a.
Proof.
  unfold App.clear_capture_interval.
  by destruct (App.interval_set (App.captureIntervalRef a)).
Qed.

Lemma truthy_Some (v : option string) :
  truthy v = true <-> exists x, v = Some x /\ x <> "".
Proof.
  destruct v as [x|]; cbn.
  - case_decide as Hx; split.
    + done.
    + intros (y & Heq & Hy). inversion Heq; subst. done.
    + intros _. eauto.
    + done.
  - split; [done|]. by intros (? & ? & _).
Qed.

Lemma mount_auth_inv (stored : gmap string string) (s : AState) :
  mount parse stored = Some s -> auth_inv s.
Proof.
  unfold mount, check_login, getItem. cbn [localStorage initial].
  destruct (truthy (stored !! "sbms_auth_token")) eqn:Ht; cbn [andb].
  - destruct (truthy (stored !! "sbms_user")) eqn:Hu.
    + destruct (stored !! "sbms_user" ≫= JSON_parse parse) as [v|]; [|done].
      intros [= <-]. apply truthy_Some in Ht as (t & Ht & _).
      apply truthy_Some in Hu as (x & Hu & _).
      repeat split; cbn; try done; try lia; eauto.
    + intros [= <-]. repeat split; cbn; try done; try lia.
  - intros [= <-]. repeat split; cbn; try done; try lia.
Qed.

Lemma awaiting_single (s : AState) (k : nat) (m : Mode) (held : Form) :
  auth_inv s -> awaiting s !! k = Some (m, held) ->
  k = 0 /\ awaiting s = [(m, held)].
Proof.
  intros (Hlen & _) Hk.
  destruct (awaiting s) as [|x [|y l]]; cbn in *; [done| |lia].
  destruct k; [|done]. by inversion Hk.
Qed.

(** The invariant depends on five components of the state only. *)
Lemma auth_inv_ext (s s' : AState) :
  awaiting s' = awaiting s -> authLoading s' = authLoading s ->
  App.isLoggedIn (app s') = App.isLoggedIn (app s) -> user s' = user s ->
  localStorage s' = localStorage s ->
  auth_inv s -> auth_inv s'.
Proof.
  unfold auth_inv. intros -> -> -> -> ->. done.
Qed.

Lemma step_auth_inv (s s' : AState) (ev : Event) :
  auth_inv s -> step stringify TypeError_message s ev = Some s' -> auth_inv s'.
Proof.
  intros Hinv Hstep.
  pose proof Hinv as (Hlen & Hload & Huser & Hkeys).
  destruct ev; cbn [step] in Hstep.
  - destruct (App.isLoggedIn (app s)); [discriminate|].
    inversion Hstep; subst. by eapply auth_inv_ext; [..|exact Hinv].
  - destruct (showAuthModal s); [|discriminate].
    inversion Hstep; subst. by eapply auth_inv_ext; [..|exact Hinv].
  - destruct (showAuthModal s); [|discriminate].
    inversion Hstep; subst. by eapply auth_inv_ext; [..|exact Hinv].
  - destruct (showAuthModal s); [|discriminate].
    inversion Hstep; subst. by eapply auth_inv_ext; [..|exact Hinv].
  - destruct (showAuthModal s); [|discriminate].
    inversion Hstep; subst. by eapply auth_inv_ext; [..|exact Hinv].
  - destruct (showAuthModal s), (authMode s); try discriminate.
    inversion Hstep; subst. by eapply auth_inv_ext; [..|exact Hinv].
  - destruct (showAuthModal s); [|discriminate].
    destruct (authLoading s) eqn:Hl; [discriminate|]. cbn [negb andb] in Hstep.
    destruct (form_complete (authMode s) (authForm s)); [|discriminate].
    assert (Hnone : awaiting s = []).
    { destruct (awaiting s) as [|x l] eqn:Ha; [done|].
      assert (false = true) by (by apply Hload). done. }
    inversion Hstep; subst s'. clear Hstep.
    unfold auth_inv, handleLogin_submit, handleRegister_submit.
    destruct (authMode s); cbn; rewrite Hnone; cbn;
      (split; [lia|]); (split; [done|]); split; done.
  - destruct (awaiting s !! k) as [[m held]|] eqn:Hk; [|discriminate].
    destruct (awaiting_single s k m held Hinv Hk) as [-> Hone].
    rewrite Hone in Hstep. cbn [delete list_delete] in Hstep.
    unfold auth_inv. destruct m.
    + inversion Hstep; subst s'. unfold handleLogin_settle.
      destruct r as [message|ok data].
      * cbn. split; [lia|]. split; [done|]. split; done.
      * destruct ok; cbn [negb].
        -- destruct (read_email TypeError_message (data_user data)); cbn;
             (split; [lia|]); (split; [done|]); (split; [done|]); intros _;
             (split; [rewrite lookup_insert_ne by done|]);
             rewrite lookup_insert_eq; eauto.
        -- cbn. split; [lia|]. split; [done|]. split; done.
    + inversion Hstep; subst s'. unfold handleRegister_settle.
      destruct r as [message|ok data]; [|destruct ok]; cbn;
        (split; [lia|]); (split; [done|]); split; done.
  - destruct (App.isLoggedIn (app s)); [|discriminate]. inversion Hstep; subst s'.
    unfold auth_inv, handleLogout. cbn.
    rewrite clear_capture_interval_isLoggedIn. cbn.
    split; [done|]. split; [done|]. split; done.
  - destruct (App.step (app s) ev) as [a|] eqn:Ha.
    + assert (Hev : ev <> App.LoginOk /\ ev <> App.ClickLogout).
      { by destruct ev. }
      destruct Hev as [H1 H2].
      assert (s' = on_app (fun _ => a) s) as -> by (by destruct ev; inversion Hstep).
      eapply auth_inv_ext; [..|exact Hinv]; try reflexivity.
      cbn. by eapply app_step_isLoggedIn.
    + by destruct ev.
Qed.

Lemma run_auth_inv (evs : list Event) (s s' : AState) :
  auth_inv s -> run stringify TypeError_message s evs = Some s' -> auth_inv s'.
Proof.
  revert s. induction evs as [|ev evs IH]; intros s Hinv Hrun; simpl in Hrun.
  - by inversion Hrun; subst.
  - destruct (step stringify TypeError_message s ev) as [s1|] eqn:Hstep; [|discriminate].
    eapply IH; [|exact Hrun]. eapply step_auth_inv; eauto.
Qed.

End AuthInvariant.

Section AuthProperties.

Import Auth.

Context {User : Type}.
Variable stringify : User -> string.
Variable parse : string -> option (option User).
Variable TypeError_message : string -> string.

Local Abbreviation AState := (@AuthState User).

(** X12. From the mount on, whatever the user and the network do: at most
    one login or registration request is in flight, the loading flag is up
    exactly while one is, and the form cannot be submitted meanwhile; while
    the component is logged out its user is [null], and while it is logged
    in both items are in [localStorage]. Being logged in does not mean
    that a user is held: a reply without one logs in as well. *)
Theorem login_state_invariant (stored : gmap string string)
    (evs : list Event) (s0 s : AState) :
  mount parse stored = Some s0 ->
  run stringify TypeError_message s0 evs = Some s ->
  length (awaiting s) <= 1
  /\ (authLoading s = true <-> awaiting s <> [])
  /\ (authLoading s = true -> step stringify TypeError_message s Submit = None)
  /\ (App.isLoggedIn (app s) = false -> user s = Null)
  /\ (App.isLoggedIn (app s) = true ->
      is_Some (localStorage s !! "sbms_auth_token")
      /\ is_Some (localStorage s !! "sbms_user")).
Proof.
  intros Hmount Hrun.
  pose proof (run_auth_inv stringify TypeError_message evs s0 s (mount_auth_inv parse stored s0 Hmount) Hrun)
    as (Hlen & Hload & Huser & Hkeys).
  split; [exact Hlen|]. split; [exact Hload|]. split; [|split; assumption].
  intros Hl. cbn [step]. rewrite Hl. by destruct (showAuthModal s).
Qed.

Lemma settle_login_ok (s s' : AState) (k : nat) (held : Form)
    (e : option string) (token : string) (u : User) :
  awaiting s !! k = Some (login, held) ->
  step stringify TypeError_message s
    (Settle k (Response true {| error := e; access_token := Some token;
                                data_user := Value u |})) = Some s' ->
  s' = setAuthLoading false
         (setAuthForm empty_form
            (setShowAuthModal false
               (on_app (App.setIsLoggedIn true)
                  (setUser (Value u)
                     (setItem "sbms_user" (stringify u)
                        (setItem "sbms_auth_token" token
                           (set_awaiting (delete k (awaiting s)) s))))))).
Proof.
  intros Hk Hstep. cbn [step] in Hstep. rewrite Hk in Hstep.
  cbn in Hstep. by inversion Hstep.
Qed.

(** X13. A login that succeeds survives a reload. The ok reply logs the
    user in, closes the modal and empties the form; if the token it
    carries is not empty, mounting the component afresh over the resulting
    [localStorage] is logged in again as the same user. With an empty
    token the fresh mount is logged out. *)
Theorem login_survives_reload (s s' : AState) (k : nat) (held : Form)
    (e : option string) (token : string) (u : User) :
  awaiting s !! k = Some (login, held) ->
  parse (stringify u) = Some (Some u) ->
  stringify u <> "" ->
  step stringify TypeError_message s
    (Settle k (Response true {| error := e; access_token := Some token;
                                data_user := Value u |})) = Some s' ->
  App.isLoggedIn (app s') = true /\ user s' = Value u
  /\ showAuthModal s' = false /\ authForm s' = empty_form
  /\ authLoading s' = false
  /\ (token <> "" ->
      exists s'', mount parse (localStorage s') = Some s''
                  /\ App.isLoggedIn (app s'') = true /\ user s'' = Value u)
  /\ (token = "" -> mount parse (localStorage s') = Some (initial (localStorage s'))).
Proof.
  intros Hk Hparse Hne Hstep.
  rewrite (settle_login_ok s s' k held e token u Hk Hstep).
  repeat (split; [reflexivity|]).
  cbn [localStorage setAuthLoading setAuthForm setShowAuthModal on_app setUser
       setItem set_localStorage set_awaiting].
  set (ls := <["sbms_user":=stringify u]> (<["sbms_auth_token":=token]> (localStorage s))).
  assert (Ht : ls !! "sbms_auth_token" = Some token).
  { subst ls. rewrite lookup_insert_ne by done. apply lookup_insert_eq. }
  assert (Hu : ls !! "sbms_user" = Some (stringify u)).
  { subst ls. apply lookup_insert_eq. }
  split.
  - intros Htok. unfold mount, check_login, getItem. cbn [localStorage initial].
    rewrite Ht, Hu. cbn [truthy]. rewrite !decide_False by done. cbn.
    unfold JSON_parse. rewrite Hparse. eexists. split; [reflexivity|]. split; reflexivity.
  - intros ->. unfold mount, check_login, getItem. cbn [localStorage initial].
    rewrite Ht. reflexivity.
Qed.

(** X14. Logging out forgets the session: both items are removed from
    [localStorage] and nothing else in it changes, the user is dropped, the
    capture is switched off, and a fresh mount over the resulting storage
    is logged out. *)
Theorem logout_forgets_session (s s' : AState) :
  step stringify TypeError_message s ClickLogout = Some s' ->
  App.isLoggedIn (app s') = false /\ user s' = Null
  /\ App.isStreaming (app s') = false
  /\ localStorage s' = delete "sbms_user" (delete "sbms_auth_token" (localStorage s))
  /\ (forall key, key <> "sbms_auth_token" -> key <> "sbms_user" ->
        localStorage s' !! key = localStorage s !! key)
  /\ mount parse (localStorage s') = Some (initial (localStorage s')).
Proof.
  intros Hstep. cbn [step] in Hstep.
  destruct (App.isLoggedIn (app s)); [|discriminate]. inversion Hstep; subst s'.
  unfold handleLogout. cbn.
  rewrite clear_capture_interval_isLoggedIn. cbn.
  repeat (split; [reflexivity|]). split.
  - intros key H1 H2. by rewrite !lookup_delete_ne.
  - unfold mount, check_login, getItem. cbn [localStorage initial].
    rewrite lookup_delete_ne by done. rewrite lookup_delete_eq. reflexivity.
Qed.

(** X15. Nothing but an ok reply to a pending login request logs the user
    in: if an event takes the component from logged out to logged in, it
    is such a reply. What the reply holds as user, be it [undefined] or
    [null], is then the user of the component; the token and the user are
    stored as the strings they convert to; the modal is closed; and the
    error shown is the TypeError's when the reply has no user and the one
    shown before otherwise. A registration, a failed login or a request
    still in flight never logs in. *)
Theorem only_login_reply_logs_in (s s' : AState) (ev : Event) :
  step stringify TypeError_message s ev = Some s' ->
  App.isLoggedIn (app s) = false ->
  App.isLoggedIn (app s') = true ->
  exists k held data,
    ev = Settle k (Response true data)
    /\ awaiting s !! k = Some (login, held)
    /\ user s' = data_user data
    /\ localStorage s' !! "sbms_auth_token" = Some (String_of (access_token data))
    /\ localStorage s' !! "sbms_user"
       = Some (String_of (JSON_stringify stringify (data_user data)))
    /\ showAuthModal s' = false
    /\ authError s'
       = default (authError s) (read_email TypeError_message (data_user data)).
Proof.
  intros Hstep Hout Hin. destruct ev; cbn [step] in Hstep.
  - rewrite Hout in Hstep. inversion Hstep; subst s'. cbn in Hin. congruence.
  - destruct (showAuthModal s); [|discriminate]. inversion Hstep; subst s'.
    cbn in Hin. congruence.
  - destruct (showAuthModal s); [|discriminate]. inversion Hstep; subst s'.
    cbn in Hin. congruence.
  - destruct (showAuthModal s); [|discriminate]. inversion Hstep; subst s'.
    cbn in Hin. congruence.
  - destruct (showAuthModal s); [|discriminate]. inversion Hstep; subst s'.
    cbn in Hin. congruence.
  - destruct (showAuthModal s), (authMode s); try discriminate.
    inversion Hstep; subst s'. cbn in Hin. congruence.
  - destruct (showAuthModal s && negb (authLoading s)
              && form_complete (authMode s) (authForm s)); [|discriminate].
    inversion Hstep; subst s'. destruct (authMode s); cbn in Hin; congruence.
  - destruct (awaiting s !! k) as [[m held]|] eqn:Hk; [|discriminate].
    destruct m.
    + inversion Hstep; subst s'. clear Hstep.
      destruct r as [message|ok data].
      * cbn in Hin. congruence.
      * destruct ok; [|cbn in Hin; congruence].
        exists k, held, data.
        split; [reflexivity|]. split; [exact Hk|].
        unfold handleLogin_settle. cbn [negb].
        destruct (read_email TypeError_message (data_user data)); cbn;
          (split; [reflexivity|]);
          (split; [rewrite lookup_insert_ne by done; apply lookup_insert_eq|]);
          (split; [apply lookup_insert_eq|]); done.
    + inversion Hstep; subst s'. unfold handleRegister_settle in Hin.
      destruct r as [message|ok data]; [|destruct ok]; cbn in Hin; congruence.
  - rewrite Hout in Hstep. discriminate.
  - destruct (App.step (app s) ev) as [a|] eqn:Ha; [|by destruct ev].
    assert (Hev : ev <> App.LoginOk /\ ev <> App.ClickLogout) by (by destruct ev).
    destruct Hev as [H1 H2].
    assert (s' = on_app (fun _ => a) s) as -> by (by destruct ev; inversion Hstep).
    cbn in Hin. rewrite (app_step_isLoggedIn _ _ _ Ha H1 H2) in Hin. congruence.
Qed.

End AuthProperties.

Section AuthMore.

Import Auth.

Context {User : Type}.
Variable stringify : User -> string.
Variable parse : string -> option (option User).
Variable TypeError_message : string -> string.

Local Abbreviation AState := (@AuthState User).

Lemma step_storage (s s' : AState) (ev : Event) (key : string) :
  step stringify TypeError_message s ev = Some s' ->
  key <> "sbms_auth_token" -> key <> "sbms_user" ->
  localStorage s' !! key = localStorage s !! key.
Proof.
  intros Hstep H1 H2. destruct ev; cbn [step] in Hstep.
  - destruct (App.isLoggedIn (app s)); [discriminate|]. by inversion Hstep; subst.
  - destruct (showAuthModal s); [|discriminate]. by inversion Hstep; subst.
  - destruct (showAuthModal s); [|discriminate]. by inversion Hstep; subst.
  - destruct (showAuthModal s); [|discriminate]. by inversion Hstep; subst.
  - destruct (showAuthModal s); [|discriminate]. by inversion Hstep; subst.
  - destruct (showAuthModal s), (authMode s); try discriminate.
    by inversion Hstep; subst.
  - destruct (showAuthModal s && negb (authLoading s)
              && form_complete (authMode s) (authForm s)); [|discriminate].
    inversion Hstep; subst s'. by destruct (authMode s).
  - destruct (awaiting s !! k) as [[m held]|] eqn:Hk; [|discriminate].
    destruct m.
    + inversion Hstep; subst s'. unfold handleLogin_settle.
      destruct r as [message|ok data]; [done|].
      destruct ok; [|done]. cbn [negb].
      destruct (read_email TypeError_message (data_user data)); cbn;
        by rewrite !lookup_insert_ne.
    + inversion Hstep; subst s'. unfold handleRegister_settle.
      by destruct r as [message|ok data]; [|destruct ok].
  - destruct (App.isLoggedIn (app s)); [|discriminate]. inversion Hstep; subst s'.
    cbn. by rewrite !lookup_delete_ne.
  - destruct (App.step (app s) ev) as [a|] eqn:Ha; [|by destruct ev].
    by destruct ev; inversion Hstep.
Qed.

(** X16. The component writes only its own two items: over any run, every
    other key of [localStorage] keeps the value it had. *)
Theorem foreign_storage_untouched (evs : list Event) (s s' : AState) (key : string) :
  run stringify TypeError_message s evs = Some s' ->
  key <> "sbms_auth_token" -> key <> "sbms_user" ->
  localStorage s' !! key = localStorage s !! key.
Proof.
  revert s. induction evs as [|ev evs IH]; intros s Hrun H1 H2; simpl in Hrun.
  - by inversion Hrun; subst.
  - destruct (step stringify TypeError_message s ev) as [s1|] eqn:Hstep; [|discriminate].
    rewrite (IH s1 Hrun H1 H2). by eapply step_storage.
Qed.

(** Typing and switching the mode touch the form and the mode only. *)
Lemma run_edits (edits : list Event) (s s' : AState) :
  forallb is_edit edits = true ->
  run stringify TypeError_message s edits = Some s' ->
  awaiting s' = awaiting s /\ app s' = app s /\ user s' = user s
  /\ localStorage s' = localStorage s /\ alerts s' = alerts s
  /\ requests s' = requests s /\ authLoading s' = authLoading s.
Proof.
  revert s. induction edits as [|ev edits IH]; intros s Hall Hrun; simpl in Hrun.
  - by inversion Hrun; subst.
  - cbn in Hall. apply andb_prop in Hall as [Hev Hall].
    destruct (step stringify TypeError_message s ev) as [s1|] eqn:Hstep; [|discriminate].
    destruct (IH s1 Hall Hrun) as (-> & -> & -> & -> & -> & -> & ->).
    destruct ev; try discriminate; cbn [step] in Hstep.
    + destruct (showAuthModal s); [|discriminate]. by inversion Hstep; subst.
    + destruct (showAuthModal s); [|discriminate]. by inversion Hstep; subst.
    + destruct (showAuthModal s); [|discriminate]. by inversion Hstep; subst.
    + destruct (showAuthModal s), (authMode s); try discriminate.
      by inversion Hstep; subst.
Qed.

(** X17. A registration that succeeds never logs in. It shows one alert,
    switches the modal to login and leaves in the form the e-mail and the
    password as they were when the form was submitted, with the name
    cleared: what the user typed while the request was in flight is
    overwritten. The session, the user and [localStorage] are as before. *)
Theorem registration_keeps_credentials (stored : gmap string string)
    (evs edits : list Event) (s0 s s1 s2 s3 : AState) (data : Data) :
  mount parse stored = Some s0 ->
  run stringify TypeError_message s0 evs = Some s ->
  authMode s = register ->
  step stringify TypeError_message s Submit = Some s1 ->
  forallb is_edit edits = true ->
  run stringify TypeError_message s1 edits = Some s2 ->
  step stringify TypeError_message s2 (Settle 0 (Response true data)) = Some s3 ->
  authForm s3 = {| email := email (authForm s); password := password (authForm s);
                   name := "" |}
  /\ authMode s3 = login /\ authError s3 = "" /\ authLoading s3 = false
  /\ alerts s3 = alerts s ++ ["Registration successful! Please login."]
  /\ requests s3 = requests s ++ [register_request (authForm s)]
  /\ app s3 = app s /\ user s3 = user s /\ localStorage s3 = localStorage s.
Proof.
  intros Hmount Hrun Hmode Hsub Hedits Hrun2 Hsettle.
  pose proof (run_auth_inv stringify TypeError_message evs s0 s (mount_auth_inv parse stored s0 Hmount) Hrun)
    as (_ & Hload & _).
  cbn [step] in Hsub. rewrite Hmode in Hsub.
  destruct (showAuthModal s); [|discriminate].
  destruct (authLoading s) eqn:Hl; [discriminate|]. cbn [negb andb] in Hsub.
  destruct (form_complete register (authForm s)); [|discriminate].
  assert (Hnone : awaiting s = []).
  { destruct (awaiting s) as [|x l] eqn:Ha; [done|].
    assert (false = true) by (by apply Hload). done. }
  inversion Hsub; subst s1. clear Hsub.
  destruct (run_edits edits _ s2 Hedits Hrun2) as (Ha & Happ & Hu & Hls & Hal & Hrq & _).
  cbn [step] in Hsettle. rewrite Ha in Hsettle.
  unfold handleRegister_submit in Hsettle, Happ, Hu, Hls, Hal, Hrq.
  cbn in Hsettle, Happ, Hu, Hls, Hal, Hrq. rewrite Hnone in Hsettle. cbn in Hsettle.
  inversion Hsettle; subst s3. cbn.
  rewrite Happ, Hu, Hls, Hal, Hrq. done.
Qed.

(** X18. A login or registration that fails tells the user why and
    changes nothing else: the error shown is the message of the thrown
    error, or the [error] text of the reply, or, when the reply has none
    or an empty one, 'Login failed' respectively 'Registration failed';
    the loading flag is lowered, and the session, the user,
    [localStorage], the modal and the form stay as they were. *)
Theorem failed_attempt_reports_error (s s' : AState) (k : nat) (m : Mode)
    (held : Form) (r : Reply) :
  awaiting s !! k = Some (m, held) ->
  (forall data, r <> Response true data) ->
  step stringify TypeError_message s (Settle k r) = Some s' ->
  authError s'
  = match r with
    | Threw message => message
    | Response _ data =>
        match error data with
        | Some text =>
            if decide (text = "")
            then match m with
                 | login => "Login failed"
                 | register => "Registration failed"
                 end
            else text
        | None => match m with
                  | login => "Login failed"
                  | register => "Registration failed"
                  end
        end
    end
  /\ authLoading s' = false
  /\ app s' = app s /\ user s' = user s /\ localStorage s' = localStorage s
  /\ showAuthModal s' = showAuthModal s /\ authForm s' = authForm s
  /\ authMode s' = authMode s /\ alerts s' = alerts s.
Proof.
  intros Hk Hfail Hstep. cbn [step] in Hstep. rewrite Hk in Hstep.
  destruct r as [message|ok data].
  - destruct m; cbn in Hstep; inversion Hstep; subst s'; done.
  - destruct ok; [by exfalso; eapply Hfail|].
    destruct m; cbn in Hstep; inversion Hstep; subst s'; cbn;
      (split; [|done]); unfold App.js_or; by destruct (error data).
Qed.

End AuthMore.

Section AuthExamples.

Import Auth.

Lemma login_state_invariant_witness :
  length (awaiting (sample_after (fill_login ++ [Submit]))) <= 1
  /\ (authLoading (sample_after (fill_login ++ [Submit])) = true
      <-> awaiting (sample_after (fill_login ++ [Submit])) <> [])
  /\ (authLoading (sample_after (fill_login ++ [Submit])) = true
      -> step sample_stringify sample_TypeError (sample_after (fill_login ++ [Submit])) Submit = None)
  /\ (App.isLoggedIn (app (sample_after (fill_login ++ [Submit]))) = false
      -> user (sample_after (fill_login ++ [Submit])) = Null)
  /\ (App.isLoggedIn (app (sample_after (fill_login ++ [Submit]))) = true ->
      is_Some (localStorage (sample_after (fill_login ++ [Submit])) !! "sbms_auth_token")
      /\ is_Some (localStorage (sample_after (fill_login ++ [Submit])) !! "sbms_user")).
Proof.
  apply (login_state_invariant sample_stringify sample_parse sample_TypeError ∅
           (fill_login ++ [Submit]) (initial ∅)); vm_compute; reflexivity.
Defined.

Lemma login_survives_reload_witness :
  App.isLoggedIn (app (sample_after (fill_login ++ [Submit; Settle 0 sample_ok]))) = true
  /\ user (sample_after (fill_login ++ [Submit; Settle 0 sample_ok])) = Value "ann"
  /\ showAuthModal (sample_after (fill_login ++ [Submit; Settle 0 sample_ok])) = false
  /\ authForm (sample_after (fill_login ++ [Submit; Settle 0 sample_ok])) = empty_form
  /\ authLoading (sample_after (fill_login ++ [Submit; Settle 0 sample_ok])) = false
  /\ ("tok-1" <> "" ->
      exists s'',
        mount sample_parse
          (localStorage (sample_after (fill_login ++ [Submit; Settle 0 sample_ok])))
        = Some s''
        /\ App.isLoggedIn (app s'') = true /\ user s'' = Value "ann")
  /\ ("tok-1" = "" ->
      mount sample_parse
        (localStorage (sample_after (fill_login ++ [Submit; Settle 0 sample_ok])))
      = Some (initial
                (localStorage (sample_after (fill_login ++ [Submit; Settle 0 sample_ok]))))).
Proof.
  apply (login_survives_reload sample_stringify sample_parse sample_TypeError
           (sample_after (fill_login ++ [Submit]))
           (sample_after (fill_login ++ [Submit; Settle 0 sample_ok]))
           0 {| email := "ann@example.org"; password := "hunter2"; name := "" |}
           None "tok-1" "ann");
    first [ vm_compute; reflexivity | vm_compute; discriminate ].
Defined.

Lemma logout_forgets_session_witness :
  App.isLoggedIn
    (app (sample_after (fill_login ++ [Submit; Settle 0 sample_ok; ClickLogout]))) = false
  /\ user (sample_after (fill_login ++ [Submit; Settle 0 sample_ok; ClickLogout])) = Null
  /\ App.isStreaming
       (app (sample_after (fill_login ++ [Submit; Settle 0 sample_ok; ClickLogout]))) = false
  /\ localStorage (sample_after (fill_login ++ [Submit; Settle 0 sample_ok; ClickLogout]))
     = delete "sbms_user"
         (delete "sbms_auth_token"
            (localStorage (sample_after (fill_login ++ [Submit; Settle 0 sample_ok]))))
  /\ (forall key, key <> "sbms_auth_token" -> key <> "sbms_user" ->
        localStorage (sample_after (fill_login ++ [Submit; Settle 0 sample_ok; ClickLogout]))
        !! key
        = localStorage (sample_after (fill_login ++ [Submit; Settle 0 sample_ok])) !! key)
  /\ mount sample_parse
       (localStorage (sample_after (fill_login ++ [Submit; Settle 0 sample_ok; ClickLogout])))
     = Some (initial
               (localStorage
                  (sample_after (fill_login ++ [Submit; Settle 0 sample_ok; ClickLogout])))).
Proof.
  apply (logout_forgets_session sample_stringify sample_parse sample_TypeError
           (sample_after (fill_login ++ [Submit; Settle 0 sample_ok]))
           (sample_after (fill_login ++ [Submit; Settle 0 sample_ok; ClickLogout]))).
  vm_compute. reflexivity.
Defined.

Lemma only_login_reply_logs_in_witness :
  exists k held data,
    Settle 0 sample_no_user = Settle k (Response true data)
    /\ awaiting (sample_after (fill_login ++ [Submit])) !! k = Some (login, held)
    /\ user (sample_after (fill_login ++ [Submit; Settle 0 sample_no_user]))
       = data_user data
    /\ localStorage (sample_after (fill_login ++ [Submit; Settle 0 sample_no_user]))
       !! "sbms_auth_token" = Some (String_of (access_token data))
    /\ localStorage (sample_after (fill_login ++ [Submit; Settle 0 sample_no_user]))
       !! "sbms_user"
       = Some (String_of (JSON_stringify sample_stringify (data_user data)))
    /\ showAuthModal (sample_after (fill_login ++ [Submit; Settle 0 sample_no_user]))
       = false
    /\ authError (sample_after (fill_login ++ [Submit; Settle 0 sample_no_user]))
       = default (authError (sample_after (fill_login ++ [Submit])))
           (read_email sample_TypeError (data_user data)).
Proof.
  apply (only_login_reply_logs_in sample_stringify sample_TypeError
           (sample_after (fill_login ++ [Submit]))
           (sample_after (fill_login ++ [Submit; Settle 0 sample_no_user]))
           (Settle 0 sample_no_user)); vm_compute; reflexivity.
Defined.

Lemma foreign_storage_untouched_witness :
  localStorage (sample_after (fill_login ++ [Submit; Settle 0 sample_ok; ClickLogout]))
  !! "theme"
  = localStorage (initial (User := string) ∅) !! "theme".
Proof.
  apply (foreign_storage_untouched sample_stringify sample_TypeError
           (fill_login ++ [Submit; Settle 0 sample_ok; ClickLogout])
           (initial ∅)
           (sample_after (fill_login ++ [Submit; Settle 0 sample_ok; ClickLogout]))
           "theme");
    first [ vm_compute; reflexivity | discriminate ].
Defined.

Lemma registration_keeps_credentials_witness :
  authForm (sample_after (fill_register ++ [Submit; TypeEmail "bob@example.org";
                                            Settle 0 sample_ok]))
  = {| email := email (authForm (sample_after fill_register));
       password := password (authForm (sample_after fill_register));
       name := "" |}
  /\ authMode (sample_after (fill_register ++ [Submit; TypeEmail "bob@example.org";
                                               Settle 0 sample_ok])) = login
  /\ authError (sample_after (fill_register ++ [Submit; TypeEmail "bob@example.org";
                                                Settle 0 sample_ok])) = ""
  /\ authLoading (sample_after (fill_register ++ [Submit; TypeEmail "bob@example.org";
                                                  Settle 0 sample_ok])) = false
  /\ alerts (sample_after (fill_register ++ [Submit; TypeEmail "bob@example.org";
                                             Settle 0 sample_ok]))
     = alerts (sample_after fill_register) ++ ["Registration successful! Please login."]
  /\ requests (sample_after (fill_register ++ [Submit; TypeEmail "bob@example.org";
                                               Settle 0 sample_ok]))
     = requests (sample_after fill_register)
       ++ [register_request (authForm (sample_after fill_register))]
  /\ app (sample_after (fill_register ++ [Submit; TypeEmail "bob@example.org";
                                          Settle 0 sample_ok]))
     = app (sample_after fill_register)
  /\ user (sample_after (fill_register ++ [Submit; TypeEmail "bob@example.org";
                                           Settle 0 sample_ok]))
     = user (sample_after fill_register)
  /\ localStorage (sample_after (fill_register ++ [Submit; TypeEmail "bob@example.org";
                                                   Settle 0 sample_ok]))
     = localStorage (sample_after fill_register).
Proof.
  apply (registration_keeps_credentials sample_stringify sample_parse sample_TypeError ∅
           fill_register [TypeEmail "bob@example.org"]
           (initial ∅) (sample_after fill_register)
           (sample_after (fill_register ++ [Submit]))
           (sample_after (fill_register ++ [Submit; TypeEmail "bob@example.org"]))
           (sample_after (fill_register ++ [Submit; TypeEmail "bob@example.org";
                                            Settle 0 sample_ok]))
           {| error := None; access_token := Some "tok-1"; data_user := Value "ann" |});
    vm_compute; reflexivity.
Defined.

Lemma failed_attempt_reports_error_witness :
  authError (sample_after (fill_login ++ [Submit; Settle 0 sample_refused]))
  = "Invalid credentials"
  /\ authLoading (sample_after (fill_login ++ [Submit; Settle 0 sample_refused])) = false
  /\ app (sample_after (fill_login ++ [Submit; Settle 0 sample_refused]))
     = app (sample_after (fill_login ++ [Submit]))
  /\ user (sample_after (fill_login ++ [Submit; Settle 0 sample_refused]))
     = user (sample_after (fill_login ++ [Submit]))
  /\ localStorage (sample_after (fill_login ++ [Submit; Settle 0 sample_refused]))
     = localStorage (sample_after (fill_login ++ [Submit]))
  /\ showAuthModal (sample_after (fill_login ++ [Submit; Settle 0 sample_refused]))
     = showAuthModal (sample_after (fill_login ++ [Submit]))
  /\ authForm (sample_after (fill_login ++ [Submit; Settle 0 sample_refused]))
     = authForm (sample_after (fill_login ++ [Submit]))
  /\ authMode (sample_after (fill_login ++ [Submit; Settle 0 sample_refused]))
     = authMode (sample_after (fill_login ++ [Submit]))
  /\ alerts (sample_after (fill_login ++ [Submit; Settle 0 sample_refused]))
     = alerts (sample_after (fill_login ++ [Submit])).
Proof.
  apply (failed_attempt_reports_error sample_stringify sample_TypeError
           (sample_after (fill_login ++ [Submit]))
           (sample_after (fill_login ++ [Submit; Settle 0 sample_refused]))
           0 login {| email := "ann@example.org"; password := "hunter2"; name := "" |}
           sample_refused);
    first [ vm_compute; reflexivity | intros data; discriminate ].
Defined.

(** Two ways the component is logged in without a user. A stored user
    item holding the text 'null' is parsed to [null] on mount. An [ok]
    reply without a user is stored as the text 'undefined' and logs in; the
    modal closes, the error shown is the TypeError's, and the next mount
    over this storage fails in [JSON.parse]. *)
Lemma stored_null_logs_in :
  exists s : @AuthState string,
    mount sample_parse {[ "sbms_auth_token" := "tok-1"; "sbms_user" := "null" ]}
    = Some s
    /\ App.isLoggedIn (app s) = true /\ user s = Null.
Proof. eexists. split; [vm_compute; reflexivity|]. split; reflexivity. Qed.

Lemma reply_without_user_logs_in :
  App.isLoggedIn
    (app (sample_after (fill_login ++ [Submit; Settle 0 sample_no_user]))) = true
  /\ user (sample_after (fill_login ++ [Submit; Settle 0 sample_no_user])) = Undefined
  /\ localStorage (sample_after (fill_login ++ [Submit; Settle 0 sample_no_user]))
     !! "sbms_user" = Some "undefined"
  /\ showAuthModal (sample_after (fill_login ++ [Submit; Settle 0 sample_no_user]))
     = false
  /\ authError (sample_after (fill_login ++ [Submit; Settle 0 sample_no_user]))
     = "Cannot read properties of undefined (reading 'email')"
  /\ mount sample_parse
       (localStorage (sample_after (fill_login ++ [Submit; Settle 0 sample_no_user])))
     = None.
Proof. repeat split; vm_compute; reflexivity. Qed.

End AuthExamples.
